(** * streaming-udp-video: frame transport over UDP

    A shallow embedding of the three programs of the repository (the
    single-window receiver, the three-port threaded receiver and the
    three-camera threaded sender) as interaction trees over one event
    signature.  Every call that leaves the program (Winsock, OpenCV,
    the Win32 clock, the C++ runtime) is an event; the environment
    answers it.  Program logic between the calls is ordinary Gallina. *)

From Stdlib Require Import ZArith List String Bool Lia QArith.
From Stdlib Require Import Init.Byte DecimalString.
From Stdlib Require Import Eqdep.
From ITree Require Import ITree ITreeFacts.
Import ListNotations.
Import ITreeNotations.

Local Open Scope Z_scope.
Local Open Scope list_scope.
Local Open Scope itree_scope.

(** ** Data *)

(** [std::vector<unsigned char>] and [char buffer_[]]: both are sequences
    of octets ([char] to [unsigned char] keeps the bit pattern). *)
Definition bytes := list byte.

(** [cv::Mat]: a header (rows, columns) over a pixel buffer.  Copies of a
    [cv::Mat] share the pixel buffer, so a function that draws into a copy
    is modelled as returning the matrix every holder now sees. *)
Record Mat := { rows : Z; cols : Z; data : bytes }.

(** [cv::Mat()] *)
Definition Mat_default : Mat := {| rows := 0; cols := 0; data := [] |}.

(** [cv::Mat::empty()]: no pixel buffer, or no element. *)
Definition Mat_empty (m : Mat) : bool :=
  match data m with
  | [] => true
  | _ :: _ => rows m * cols m =? 0
  end.
Arguments Mat_empty : simpl never.

Record SYSTEMTIME := {
  wYear : Z; wMonth : Z; wDayOfWeek : Z; wDay : Z;
  wHour : Z; wMinute : Z; wSecond : Z; wMilliseconds : Z }.

Record timeval := { tv_sec : Z; tv_usec : Z }.

Record sockaddr_in := { sin_family : Z; sin_port : Z; sin_addr : Z }.

(** [fd_set] with [FD_ZERO], [FD_SET], [FD_ISSET]. *)
Definition fd_set := list Z.
Definition FD_ZERO : fd_set := [].
Definition FD_SET (fd : Z) (set : fd_set) : fd_set := fd :: set.
Definition FD_ISSET (fd : Z) (set : fd_set) : bool := existsb (Z.eqb fd) set.
Arguments FD_ISSET : simpl never.

(** [std::to_string(int)] *)
Definition to_string (z : Z) : string := NilZero.string_of_int (Z.to_int z).

(** Constants of the Winsock and OpenCV headers the programs include. *)
Definition AF_INET : Z := 2.
Definition SOCK_DGRAM : Z := 2.
Definition INADDR_ANY : Z := 0.
Definition INVALID_SOCKET : Z := -1.   (* (SOCKET)(~0), seen through [int] *)
Definition SOCKET_ERROR : Z := -1.
Definition FIONBIO : Z := 0x8004667E.
Definition CV_WINDOW_NORMAL : Z := 0.
Definition IMREAD_COLOR : Z := 1.
Definition IMWRITE_JPEG_QUALITY : Z := 1.
Definition FONT_HERSHEY_COMPLEX_SMALL : Z := 5.
Definition sizeof_sockaddr_in : Z := 16.

(** [MAKEWORD(lo, hi)] *)
Definition MAKEWORD (lo hi : Z) : Z :=
  Z.lor (Z.land lo 0xFF) (Z.shiftl (Z.land hi 0xFF) 8).

(** [htons], [htonl] on the little-endian hosts Winsock runs on. *)
Definition htons (x : Z) : Z :=
  Z.lor (Z.shiftl (Z.land x 0xFF) 8) (Z.land (Z.shiftr x 8) 0xFF).
Definition htonl (x : Z) : Z :=
  Z.lor (Z.shiftl (htons (Z.land x 0xFFFF)) 16) (htons (Z.land (Z.shiftr x 16) 0xFFFF)).

(** The function handed to [std::thread], with its arguments. *)
Inductive thread_fn :=
| fn_receive (port : Z) (kWindowName_id : string).

(** ** Events: the calls that leave the program *)

Variant ioE : Type -> Type :=
(* Winsock *)
| WSAStartup (wVersionRequested : Z) : ioE Z
| WSACleanup : ioE Z
| Socket (af type protocol : Z) : ioE Z
| Closesocket (s : Z) : ioE Z
| Ioctlsocket (s cmd argp : Z) : ioE Z
| Bind (s : Z) (name : sockaddr_in) (namelen : Z) : ioE Z
| Select (nfds : Z) (readfds : fd_set) (timeout : timeval) : ioE (Z * fd_set)
    (* answer: the return value and [readfds] as the call leaves it *)
| Recvfrom (s len flags : Z) : ioE (Z * bytes)
    (* answer: the return value and the octets written to the buffer *)
| Sendto (s : Z) (buf : bytes) (len flags : Z) (to : sockaddr_in) (tolen : Z) : ioE Z
| Inet_addr (cp : string) : ioE Z
(* OpenCV *)
| Imdecode (buf : bytes) (flags : Z) : ioE Mat
| Imencode (ext : string) (img : Mat) (params : list Z) : ioE (bool * bytes)
    (* answer: the return value and the output buffer *)
| Imread (filename : string) : ioE Mat
| NamedWindow (winname : string) (flags : Z) : ioE unit
| Imshow (winname : string) (mat : Mat) : ioE unit
| WaitKey (delay : Z) : ioE Z
| PutText (img : Mat) (text : string) (org : Z * Z) (fontFace : Z)
          (fontScale : Q) (color : Z * Z * Z) (thickness : Z) : ioE Mat
    (* answer: the matrix after drawing *)
| Resize (src : Mat) (dsize : Z * Z) (fx fy : Q) : ioE Mat
| VideoCaptureOpen (index : Z) : ioE Z
| IsOpened (capture : Z) : ioE bool
| CaptureRead (capture : Z) : ioE Mat
(* Win32 clock *)
| GetLocalTime : ioE SYSTEMTIME
| SystemTimeToFileTime (st : SYSTEMTIME) : ioE Z
| FileTimeToSystemTime (ft : Z) : ioE SYSTEMTIME
(* C and C++ runtime *)
| Cerr (line : string) : ioE unit
| Cout (line : string) : ioE unit
| Printf (text : string) : ioE unit
| System (command : string) : ioE Z
| ThreadStart (f : thread_fn) : ioE nat
| ThreadDetach (thread : nat) : ioE unit
| Exit (code : Z) : ioE Empty_set.

Definition is_exit {X} (e : ioE X) : bool :=
  match e with
  | Exit _ => true
  | _ => false
  end.

Definition call {X} (e : ioE X) : itree ioE X := ITree.trigger e.

(** [exit(code)] never returns. *)
Definition exit {R} (code : Z) : itree ioE R :=
  x <- call (Exit code) ;; match x : Empty_set with end.

(** ** Runs of a program *)

(** One call together with the environment's answer. *)
Inductive io_event : Type :=
| Call (X : Type) (e : ioE X) (x : X).
Arguments Call {X} e x.

(** [runs t tr u]: [t] performs exactly the calls of [tr], receives the
    recorded answers, and is then at [u]. *)
Inductive runs {R} : itree ioE R -> list io_event -> itree ioE R -> Prop :=
| runs_done t u :
    observe t = observe u -> runs t [] u
| runs_tau t t' tr u :
    observe t = TauF t' -> runs t' tr u -> runs t tr u
| runs_call t X (e : ioE X) k x tr u :
    observe t = VisF e k -> runs (k x) tr u -> runs t (Call e x :: tr) u.

(** A thread is over when it has returned or has called [exit]. *)
Definition terminated {R} (t : itree ioE R) : Prop :=
  match observe t with
  | RetF _ => True
  | TauF _ => False
  | VisF e _ => is_exit e = true
  end.

(** [wp ok Q t]: whatever the environment answers within [ok], [t] calls
    no [exit], returns after finitely many calls, and the calls [tr] it made
    and the value [r] it returned satisfy [Q tr r]. *)
Inductive wp {R} (ok : io_event -> Prop) (Q : list io_event -> R -> Prop)
  : itree ioE R -> Prop :=
| wp_ret t r :
    observe t = RetF r -> Q [] r -> wp ok Q t
| wp_tau t t' :
    observe t = TauF t' -> wp ok Q t' -> wp ok Q t
| wp_call t X (e : ioE X) k :
    observe t = VisF e k ->
    is_exit e = false ->
    (forall x, ok (Call e x) -> wp ok (fun tr r => Q (Call e x :: tr) r) (k x)) ->
    wp ok Q t.

Definition any_answer : io_event -> Prop := fun _ => True.

(** ** Code shared verbatim by the three programs *)

(** This is the maximum UDP packet size, and the buffer will be allocated
    for the max amount. *)
Definition kMaxPacketBufferSize : Z := 65535.

Definition kDisplayDelayTimeMS : Z := 15.
Definition kJPEGExtension : string := ".jpg".

Record VideoFrame := { frame_image_ : Mat }.

(** [VideoFrame()]: default constructor just makes an empty image. *)
Definition VideoFrame_new : VideoFrame := {| frame_image_ := Mat_default |}.

(** [VideoFrame(const cv::Mat&)] *)
Definition VideoFrame_of_Mat (image : Mat) : VideoFrame :=
  {| frame_image_ := image |}.

(** [VideoFrame(const std::vector<unsigned char>)] *)
Definition VideoFrame_of_bytes (frame_bytes : bytes) : itree ioE VideoFrame :=
  image <- call (Imdecode frame_bytes IMREAD_COLOR) ;;
  Ret {| frame_image_ := image |}.

(** [VideoFrame::GetJPEG]; the quality constant differs between programs. *)
Definition GetJPEG (kJPEGQuality : Z) (frame : VideoFrame) : itree ioE bytes :=
  let compression_params := [IMWRITE_JPEG_QUALITY; kJPEGQuality] in
  '(_, data_buffer) <-
     call (Imencode kJPEGExtension (frame_image_ frame) compression_params) ;;
  Ret data_buffer.

Record BasicProtocolData := { video_frame_ : VideoFrame }.

Definition BasicProtocolData_new : BasicProtocolData :=
  {| video_frame_ := VideoFrame_new |}.

Definition SetImage (pd : BasicProtocolData) (image : VideoFrame)
  : BasicProtocolData :=
  {| video_frame_ := image |}.

Definition GetImage (pd : BasicProtocolData) : VideoFrame := video_frame_ pd.

Definition PackageData (kJPEGQuality : Z) (pd : BasicProtocolData)
  : itree ioE bytes :=
  GetJPEG kJPEGQuality (video_frame_ pd).

Record ReceiverSocket := {
  buffer_ : bytes;          (* char buffer_[kMaxPacketBufferSize] *)
  port_ : Z;
  socket_handle_ : Z }.

(** The array before anything was received into it.  C++ leaves its
    contents indeterminate; they are read only if [recvfrom] reports more
    octets than it wrote. *)
Definition fresh_buffer (size : Z) : bytes := repeat x00 (Z.to_nat size).
Arguments fresh_buffer : simpl never.

Definition ReceiverSocket_new (port_number : Z) : itree ioE ReceiverSocket :=
  handle <- call (Socket AF_INET SOCK_DGRAM 0) ;;
  Ret {| buffer_ := fresh_buffer kMaxPacketBufferSize;
         port_ := port_number;
         socket_handle_ := handle |}.

(** What [recvfrom] leaves in the array: the received octets from index 0,
    the array keeps its size. *)
Definition received_into (received buffer : bytes) : bytes :=
  firstn (List.length buffer)
         (received ++ skipn (List.length received) buffer).

(** The socket object once [recvfrom] has written into its [buffer_]. *)
Definition record_received (s : ReceiverSocket) (received : bytes)
  : ReceiverSocket :=
  {| buffer_ := received_into received (buffer_ s);
     port_ := port_ s;
     socket_handle_ := socket_handle_ s |}.

(** The blocking [GetPacket] of the single-window receiver and of the
    sender file. *)
Definition GetPacket_blocking (s : ReceiverSocket)
  : itree ioE (ReceiverSocket * bytes) :=
  '(num_bytes, received) <-
     call (Recvfrom (socket_handle_ s) kMaxPacketBufferSize 0) ;;
  let s := record_received s received in
  let data := [] in
  let data :=
    if num_bytes >? 0
    then data ++ firstn (Z.to_nat num_bytes) (buffer_ s)
    else data in
  Ret (s, data).

(** The address [BindSocketToListen] binds to. *)
Definition listen_addr (s : ReceiverSocket) : sockaddr_in :=
  {| sin_family := AF_INET;
     sin_port := htons (port_ s);
     sin_addr := htonl INADDR_ANY |}.

(** [scale_] is a [float] that the code only compares with 1.0 and hands
    to [cv::resize]; a rational stands for it. *)
Record VideoCapture := {
  capture_ : Z;             (* the cv::VideoCapture device *)
  scale_ : Q;
  show_video_ : bool }.

(** The constructor opens camera [camera]; the single-window file always
    opens camera 0. *)
Definition VideoCapture_new (show_video : bool) (scale : Q) (camera : Z)
  : itree ioE VideoCapture :=
  capture <- call (VideoCaptureOpen camera) ;;
  Ret {| capture_ := capture; scale_ := scale; show_video_ := show_video |}.

(** The text both overlays print: [hour:min:sec.ms]. *)
Definition clock_text (sys : SYSTEMTIME) : string :=
  let hour := to_string (wHour sys) in
  let min := to_string (wMinute sys) in
  let sec := to_string (wSecond sys) in
  let ms := to_string (wMilliseconds sys) in
  (hour ++ ":" ++ min ++ ":" ++ sec ++ "." ++ ms)%string.

Definition Qltb (x y : Q) : bool := negb (Qle_bool y x).

(** ** The single-window receiver *)

Module Receiver.

Definition kWindowName : string := "Streaming Video".
Definition kJPEGQuality : Z := 90.

Definition Display (frame : VideoFrame) : itree ioE VideoFrame :=
  (* Do nothing for empty images. *)
  if Mat_empty (frame_image_ frame) then Ret frame
  else
    (call (NamedWindow kWindowName CV_WINDOW_NORMAL) ;;
     sys <- call GetLocalTime ;;
     let text := clock_text sys in
     image <- call (PutText (frame_image_ frame) text (16, 40)
                      FONT_HERSHEY_COMPLEX_SMALL (16 # 10) (0, 0, 255) 2) ;;
     call (Imshow kWindowName image) ;;
     call (WaitKey kDisplayDelayTimeMS) ;;
     Ret {| frame_image_ := image |}).

Definition GetFrameFromCamera (vc : VideoCapture) : itree ioE VideoFrame :=
  opened <- call (IsOpened (capture_ vc)) ;;
  if negb opened then
    (call (Cerr "Could not get frame. Camera not available.") ;;
     Ret VideoFrame_new)
  else
    (image <- call (CaptureRead (capture_ vc)) ;;
     (* If the image is being downsampled, resize it first. *)
     image <- (if Qltb (scale_ vc) 1
               then call (Resize image (0, 0) (scale_ vc) (scale_ vc))
               else Ret image) ;;
     let video_frame := VideoFrame_of_Mat image in
     if show_video_ vc then Display video_frame else Ret video_frame).

Definition UnpackData (pd : BasicProtocolData) (raw_bytes : bytes)
  : itree ioE BasicProtocolData :=
  frame <- VideoFrame_of_bytes raw_bytes ;;
  Ret {| video_frame_ := frame |}.

Definition BindSocketToListen (s : ReceiverSocket) : itree ioE bool :=
  if socket_handle_ s =? INVALID_SOCKET then
    (call (Cerr "Binding failed. Socket was not initialized.") ;;
     Ret false)
  else
    (bind_status <-
       call (Bind (socket_handle_ s) (listen_addr s) sizeof_sockaddr_in) ;;
     if bind_status <? 0 then
       (call (Cerr "Binding failed. Could not bind the socket.") ;;
        Ret false)
     else Ret true).

Definition GetPacket := GetPacket_blocking.

(** One turn of [while (true)] in [main].  [GetImage] returns a copy
    whose matrix shares its pixels with the stored frame, so what
    [Display] draws reaches the stored frame too. *)
Definition receive_cycle (st : ReceiverSocket * BasicProtocolData)
  : itree ioE (ReceiverSocket * BasicProtocolData) :=
  let '(socket, protocol_data) := st in
  '(socket, packet) <- GetPacket socket ;;
  protocol_data <- UnpackData protocol_data packet ;;
  frame <- Display (GetImage protocol_data) ;;
  Ret (socket, SetImage protocol_data frame).

Definition receive_loop
  : ReceiverSocket * BasicProtocolData -> itree ioE Z :=
  ITree.iter (fun st => st <- receive_cycle st ;; Ret (inl st)).

Definition main : itree ioE Z :=
  let port := 5000 in
  started <- call (WSAStartup (MAKEWORD 2 2)) ;;
  if negb (started =? 0) then Ret 0
  else
    (socket <- ReceiverSocket_new port ;;
     bound <- BindSocketToListen socket ;;
     if negb bound then
       (call (Cerr "Could not bind socket.") ;;
        Ret (-1))
     else
       (call (Cout ("Listening on port " ++ to_string port ++ ".")%string) ;;
        receive_loop (socket, BasicProtocolData_new))).

End Receiver.

(** ** The threaded receiver: three ports, three windows *)

Module MultiReceiver.

Definition kWindowName_id1 : string := "Streaming Video".
Definition kWindowName_id2 : string := "Streaming Video".
Definition kWindowName_id3 : string := "Streaming Video".
Definition kJPEGQuality : Z := 90.

Definition Display (kWindowName : string) (frame : VideoFrame)
  : itree ioE VideoFrame :=
  (* Do nothing for empty images. *)
  if Mat_empty (frame_image_ frame) then Ret frame
  else
    (call (NamedWindow kWindowName CV_WINDOW_NORMAL) ;;
     sys <- call GetLocalTime ;;
     let text := clock_text sys in
     image <- call (PutText (frame_image_ frame) text (16, 40)
                      FONT_HERSHEY_COMPLEX_SMALL (16 # 10) (0, 0, 255) 2) ;;
     call (Imshow kWindowName image) ;;
     call (WaitKey kDisplayDelayTimeMS) ;;
     Ret {| frame_image_ := image |}).

Definition UnpackData (pd : BasicProtocolData) (raw_bytes : bytes)
  : itree ioE BasicProtocolData :=
  match raw_bytes with
  | _ :: _ =>
      frame <- VideoFrame_of_bytes raw_bytes ;;
      Ret {| video_frame_ := frame |}
  | [] =>
      Ret {| video_frame_ := VideoFrame_new |}
  end.

Definition BindSocketToListen (s : ReceiverSocket) : itree ioE bool :=
  if socket_handle_ s =? INVALID_SOCKET then
    (call (Cerr "Binding failed. Socket was not initialized.") ;;
     Ret false)
  else
    (let imode := 1 in
     rev <- call (Ioctlsocket (socket_handle_ s) FIONBIO imode) ;;
     if rev =? SOCKET_ERROR then
       (call (Printf "ioctlsocket failed!") ;;
        call (Closesocket (socket_handle_ s)) ;;
        call WSACleanup ;;
        exit (-1))
     else
       (bind_status <-
          call (Bind (socket_handle_ s) (listen_addr s) sizeof_sockaddr_in) ;;
        if bind_status <? 0 then
          (call (Cerr "Binding failed. Could not bind the socket.") ;;
           Ret false)
        else Ret true)).

(** The wait handed to [select]. *)
Definition poll_timeout : timeval := {| tv_sec := 1; tv_usec := 0 |}.

Definition GetPacket (s : ReceiverSocket) (kWindowName : string)
  : itree ioE (ReceiverSocket * bytes) :=
  let timeout := poll_timeout in
  let rfd := FD_SET (socket_handle_ s) FD_ZERO in
  '(SelectRcv, rfd) <- call (Select (socket_handle_ s + 1) rfd timeout) ;;
  if FD_ISSET (socket_handle_ s) rfd then
    ('(num_bytes, received) <-
       call (Recvfrom (socket_handle_ s) kMaxPacketBufferSize 0) ;;
     let s := record_received s received in
     let data := [] in
     let data :=
       if num_bytes >? 0
       then data ++ firstn (Z.to_nat num_bytes) (buffer_ s)
       else data in
     Ret (s, data))
  else
    (picture <- call (Imread "our_team.jpg") ;;
     call (NamedWindow kWindowName CV_WINDOW_NORMAL) ;;
     call (Imshow kWindowName picture) ;;
     call (WaitKey kDisplayDelayTimeMS) ;;
     let data : bytes := [] in
     Ret (s, data)).

(** One turn of [while (true)] in [receive]; as in the single-window
    receiver the displayed copy shares its pixels with the stored frame. *)
Definition receive_cycle (kWindowName_id : string)
           (st : ReceiverSocket * BasicProtocolData)
  : itree ioE (ReceiverSocket * BasicProtocolData) :=
  let '(socket, protocol_data) := st in
  '(socket, packet) <- GetPacket socket kWindowName_id ;;
  protocol_data <- UnpackData protocol_data packet ;;
  frame <- Display kWindowName_id (GetImage protocol_data) ;;
  Ret (socket, SetImage protocol_data frame).

Definition receive_loop (kWindowName_id : string)
  : ReceiverSocket * BasicProtocolData -> itree ioE unit :=
  ITree.iter (fun st => st <- receive_cycle kWindowName_id st ;; Ret (inl st)).

Definition receive (port : Z) (kWindowName_id : string) : itree ioE unit :=
  started <- call (WSAStartup (MAKEWORD 2 2)) ;;
  if negb (started =? 0) then exit 0
  else
    (socket <- ReceiverSocket_new port ;;
     bound <- BindSocketToListen socket ;;
     if negb bound then
       (call (Cerr "Could not bind socket.") ;;
        exit (-1))
     else
       (call (Cout ("Listening on port " ++ to_string port ++ ".")%string) ;;
        receive_loop kWindowName_id (socket, BasicProtocolData_new))).

Definition main : itree ioE Z :=
  let kWindowName_id1 := (kWindowName_id1 ++ " " ++ to_string 0)%string in
  receive1 <- call (ThreadStart (fn_receive 4000 kWindowName_id1)) ;;
  let kWindowName_id2 := (kWindowName_id2 ++ " " ++ to_string 1)%string in
  receive2 <- call (ThreadStart (fn_receive 5000 kWindowName_id2)) ;;
  let kWindowName_id3 := (kWindowName_id3 ++ " " ++ to_string 2)%string in
  receive3 <- call (ThreadStart (fn_receive 6000 kWindowName_id3)) ;;
  call (ThreadDetach receive1) ;;
  call (ThreadDetach receive2) ;;
  call (ThreadDetach receive3) ;;
  call (System "pause") ;;
  Ret 0.

End MultiReceiver.

(** ** The threaded sender: three cameras *)

Module Sender.

Definition kWindowName : string := "Streaming Video".
Definition kJPEGQuality : Z := 60.

Definition Display (frame : VideoFrame) : itree ioE VideoFrame :=
  (* Do nothing for empty images. *)
  if Mat_empty (frame_image_ frame) then Ret frame
  else
    (call (NamedWindow kWindowName CV_WINDOW_NORMAL) ;;
     call (Imshow kWindowName (frame_image_ frame)) ;;
     call (WaitKey kDisplayDelayTimeMS) ;;
     Ret frame).

(** [__int64] arithmetic. *)
Definition wrap_int64 (z : Z) : Z := (z + 2 ^ 63) mod 2 ^ 64 - 2 ^ 63.

Definition GetFrameFromCamera (vc : VideoCapture) : itree ioE VideoFrame :=
  opened <- call (IsOpened (capture_ vc)) ;;
  if negb opened then
    (call (Cerr "Could not get frame. Camera not available.") ;;
     Ret VideoFrame_new)
  else
    (image <- call (CaptureRead (capture_ vc)) ;;
     (* If the image is being downsampled, resize it first. *)
     image <- (if Qltb (scale_ vc) 1
               then call (Resize image (0, 0) (scale_ vc) (scale_ vc))
               else Ret image) ;;
     (* offset the time difference between the two PCs *)
     sys <- call GetLocalTime ;;
     let offset_sec := -2 in
     let offset_ms := 10 in
     ft <- call (SystemTimeToFileTime sys) ;;
     let ft := wrap_int64 (ft + (offset_sec * 1000 + offset_ms) * 10000) in
     sys <- call (FileTimeToSystemTime ft) ;;
     let text := clock_text sys in
     image <- call (PutText image text (16, 100)
                      FONT_HERSHEY_COMPLEX_SMALL (16 # 10) (0, 255, 0) 2) ;;
     let video_frame := VideoFrame_of_Mat image in
     if show_video_ vc then Display video_frame else Ret video_frame).

Definition UnpackData (pd : BasicProtocolData) (raw_bytes : bytes)
  : itree ioE BasicProtocolData :=
  frame <- VideoFrame_of_bytes raw_bytes ;;
  Ret {| video_frame_ := frame |}.

Definition BindSocketToListen (s : ReceiverSocket) : itree ioE bool :=
  if socket_handle_ s <? 0 then
    (call (Cerr "Binding failed. Socket was not initialized.") ;;
     Ret false)
  else
    (bind_status <-
       call (Bind (socket_handle_ s) (listen_addr s) sizeof_sockaddr_in) ;;
     if bind_status <? 0 then
       (call (Cerr "Binding failed. Could not bind the socket.") ;;
        Ret false)
     else Ret true).

Definition GetPacket := GetPacket_blocking.

Record SenderSocket := {
  socket_handle_ : Z;
  receiver_addr_ : sockaddr_in }.

Definition SenderSocket_new (receiver_ip : string) (receiver_port : Z)
  : itree ioE SenderSocket :=
  handle <- call (Socket AF_INET SOCK_DGRAM 0) ;;
  s_addr <- call (Inet_addr receiver_ip) ;;
  Ret {| socket_handle_ := handle;
         receiver_addr_ := {| sin_family := AF_INET;
                              sin_port := htons receiver_port;
                              sin_addr := s_addr |} |}.

Definition SendPacket (s : SenderSocket) (data : bytes) : itree ioE unit :=
  call (Sendto (socket_handle_ s) data (Z.of_nat (List.length data)) 0
          (receiver_addr_ s) sizeof_sockaddr_in) ;;
  Ret tt.

(** The statement [socket.SendPacket(protocol_data.PackageData())]. *)
Definition send_frame (socket : SenderSocket) (protocol_data : BasicProtocolData)
  : itree ioE unit :=
  packet <- PackageData kJPEGQuality protocol_data ;;
  SendPacket socket packet.

(** One turn of [while (true)] in [send1], [send2], [send3]. *)
Definition send_cycle (socket : SenderSocket)
           (st : VideoCapture * BasicProtocolData)
  : itree ioE (VideoCapture * BasicProtocolData) :=
  let '(video_capture, protocol_data) := st in
  frame <- GetFrameFromCamera video_capture ;;
  let protocol_data := SetImage protocol_data frame in
  send_frame socket protocol_data ;;
  Ret (video_capture, protocol_data).

Definition send_loop (socket : SenderSocket)
  : VideoCapture * BasicProtocolData -> itree ioE unit :=
  ITree.iter (fun st => st <- send_cycle socket st ;; Ret (inl st)).

(** The body [send1], [send2] and [send3] repeat with their own port,
    address and camera. *)
Definition send_to (port : Z) (ip_address : string) (camera : Z)
  : itree ioE unit :=
  started <- call (WSAStartup (MAKEWORD 2 2)) ;;
  if negb (started =? 0) then exit 0
  else
    (socket <- SenderSocket_new ip_address port ;;
     call (Cout ("Sending to " ++ ip_address ++ " on port "
                 ++ to_string port ++ ".")%string) ;;
     video_capture <- VideoCapture_new false (6 # 10) camera ;;
     send_loop socket (video_capture, BasicProtocolData_new)).

Definition send1 : itree ioE unit := send_to 6000 "192.168.43.168" 0.
Definition send2 : itree ioE unit := send_to 5000 "192.168.43.168" 1.
Definition send3 : itree ioE unit := send_to 4000 "192.168.1.3" 2.

(* The sender's [main] is not embedded.  In [std::thread send1(send1);]
   the name in the initializer is the variable being declared, not the
   function: [std::thread] cannot be copied, so the declaration is
   ill-formed and [main] has no behaviour to describe. *)

End Sender.

(** The code each thread function runs. *)
Definition thread_code (f : thread_fn) : itree ioE unit :=
  match f with
  | fn_receive port kWindowName_id => MultiReceiver.receive port kWindowName_id
  end.

(** ** The process: threads that share one [exit] *)

(** Returning from [main] ends the process like [exit]. *)
Definition main_thread (main : itree ioE Z) : itree ioE unit :=
  code <- main ;; exit code.

Inductive pstate :=
| Running (threads : list (itree ioE unit))
| Exited (code : Z).

Inductive plabel :=
| L_call (i : nat) (ev : io_event)
| L_spawn (i : nat) (f : thread_fn)
| L_exit (i : nat) (code : Z).

Definition set_thread (i : nat) (t : itree ioE unit)
           (pool : list (itree ioE unit)) : list (itree ioE unit) :=
  firstn i pool ++ t :: skipn (S i) pool.

Definition is_spawn {X} (e : ioE X) : bool :=
  match e with
  | ThreadStart _ => true
  | _ => false
  end.

Definition no_spawn (ev : io_event) : Prop :=
  match ev with
  | Call e _ => is_spawn e = false
  end.

(** Any live thread may make its next call; [std::thread] adds a thread;
    [exit] from any thread ends them all. *)
Inductive pstep : pstate -> plabel -> pstate -> Prop :=
| pstep_call pool i t t' X (e : ioE X) k x :
    nth_error pool i = Some t ->
    runs t [] t' ->
    observe t' = VisF e k ->
    is_spawn e = false ->
    pstep (Running pool) (L_call i (Call e x))
          (Running (set_thread i (k x) pool))
| pstep_spawn pool i t t' f k :
    nth_error pool i = Some t ->
    runs t [] t' ->
    observe t' = VisF (ThreadStart f) k ->
    pstep (Running pool) (L_spawn i f)
          (Running (set_thread i (k (List.length pool)) pool ++ [thread_code f]))
| pstep_exit pool i t t' code k :
    nth_error pool i = Some t ->
    runs t [] t' ->
    observe t' = VisF (Exit code) k ->
    pstep (Running pool) (L_exit i code) (Exited code).

Inductive psteps : pstate -> list plabel -> pstate -> Prop :=
| psteps_nil p : psteps p [] p
| psteps_cons p l p' ls p'' :
    pstep p l p' -> psteps p' ls p'' -> psteps p (l :: ls) p''.

(** The thread that takes a step. *)
Definition label_thread (l : plabel) : nat :=
  match l with
  | L_call i _ => i
  | L_spawn i _ => i
  | L_exit i _ => i
  end.

(** The steps thread [i] takes among [ls], in order. *)
Definition steps_of (i : nat) (ls : list plabel) : list plabel :=
  filter (fun l => Nat.eqb (label_thread l) i) ls.

(** The step of the process that a call of thread [i] is. *)
Definition label_of (i : nat) (ev : io_event) : plabel :=
  match ev with
  | Call e _ =>
      match e with
      | ThreadStart f => L_spawn i f
      | _ => L_call i ev
      end
  end.

(** ** What the environment may answer *)

(** [recvfrom] never reports more octets than the length it was given. *)
Definition recvfrom_bounded (ev : io_event) : Prop :=
  match ev with
  | Call e x =>
      match e in ioE X return X -> Prop with
      | Recvfrom _ len _ => fun a => fst a <= len
      | _ => fun _ => True
      end x
  end.

(** Every [recvfrom] reports an error or a zero-length datagram. *)
Definition recvfrom_nonpositive (ev : io_event) : Prop :=
  match ev with
  | Call e x =>
      match e in ioE X return X -> Prop with
      | Recvfrom _ _ _ => fun a => fst a <= 0
      | _ => fun _ => True
      end x
  end.

(** [select] leaves the socket [fd] out of the read set: nothing arrived
    within the wait. *)
Definition no_message (fd : Z) (ev : io_event) : Prop :=
  match ev with
  | Call e x =>
      match e in ioE X return X -> Prop with
      | Select _ _ _ => fun a => FD_ISSET fd (snd a) = false
      | _ => fun _ => True
      end x
  end.

(** The camera is not opened. *)
Definition camera_closed (ev : io_event) : Prop :=
  match ev with
  | Call e x =>
      match e in ioE X return X -> Prop with
      | IsOpened _ => fun opened => opened = false
      | _ => fun _ => True
      end x
  end.

(** ** Observations on runs *)

(** The datagram body [sendto] puts on the wire: [len] octets from [buf]. *)
Definition sent_datagram (buf : bytes) (len : Z) : bytes :=
  firstn (Z.to_nat len) buf.

(** The longest a call may keep its thread waiting, in milliseconds:
    [select] up to its timeout, [waitKey] up to its delay.  Every other
    call counts as processing. *)
Definition wait_ms (ev : io_event) : Z :=
  match ev with
  | Call e _ =>
      match e with
      | Select _ _ timeout => tv_sec timeout * 1000 + tv_usec timeout / 1000
      | WaitKey delay => delay
      | _ => 0
      end
  end.

Definition waits (tr : list io_event) : Z :=
  fold_right (fun ev total => wait_ms ev + total) 0 tr.

Definition is_imshow (ev : io_event) : bool :=
  match ev with
  | Call e _ =>
      match e with
      | Imshow _ _ => true
      | _ => false
      end
  end.

(** The environment's answers in one turn of the threaded receiver in
    which nothing arrived. *)
Record quiet_poll := {
  q_select : Z;             (* what [select] returned *)
  q_readfds : fd_set;       (* the read set as [select] left it *)
  q_picture : Mat;          (* what [imread] loaded *)
  q_key : Z }.              (* what [waitKey] returned *)

(** The calls of such a turn. *)
Definition fallback_trace (s : ReceiverSocket) (kWindowName : string)
           (a : quiet_poll) : list io_event :=
  let h := socket_handle_ s in
  [ Call (Select (h + 1) (FD_SET h FD_ZERO) MultiReceiver.poll_timeout)
         (q_select a, q_readfds a);
    Call (Imread "our_team.jpg") (q_picture a);
    Call (NamedWindow kWindowName CV_WINDOW_NORMAL) tt;
    Call (Imshow kWindowName (q_picture a)) tt;
    Call (WaitKey kDisplayDelayTimeMS) (q_key a) ].

(** The calls of a turn of the threaded receiver in which [select] found
    the socket readable and [recvfrom] answered [(num_bytes, received)]
    with nothing to decode. *)
Definition failed_receive_trace (s : ReceiverSocket)
           (sel : Z * fd_set) (rcv : Z * bytes) : list io_event :=
  let h := socket_handle_ s in
  [ Call (Select (h + 1) (FD_SET h FD_ZERO) MultiReceiver.poll_timeout) sel;
    Call (Recvfrom h kMaxPacketBufferSize 0) rcv ].

(** After the calls [tr] the session is over. *)
Definition session_ends_after {R} (session : itree ioE R)
           (tr : list io_event) : Prop :=
  exists u, runs session tr u /\ terminated u.

(** Whatever state the process reaches by [tr], it is still running. *)
Definition process_survives (p : pstate) (tr : list plabel) : Prop :=
  forall p', psteps p tr p' -> exists pool, p' = Running pool.

(** The frame slot after the turn [tr] is the frame slot before it. *)
Definition slot_persists (kWindowName_id : string)
           (st : ReceiverSocket * BasicProtocolData)
           (tr : list io_event) : Prop :=
  forall u st',
    runs (MultiReceiver.receive_cycle kWindowName_id st) tr u ->
    observe u = RetF st' ->
    video_frame_ (snd st') = video_frame_ (snd st).

(** ** Concrete sessions *)

Definition socket0 : ReceiverSocket :=
  {| buffer_ := fresh_buffer kMaxPacketBufferSize;
     port_ := 4000;
     socket_handle_ := 100 |}.

(** A decoded 2 x 2 frame. *)
Definition picture0 : Mat :=
  {| rows := 2; cols := 2; data := [x10; x20; x30; x40] |}.

Definition frame0 : VideoFrame := VideoFrame_of_Mat picture0.

(** Four octets standing for an encoded frame. *)
Definition jpeg0 : bytes := [xff; xd8; xff; xd9].

Definition quiet0 : quiet_poll :=
  {| q_select := 0; q_readfds := []; q_picture := picture0; q_key := -1 |}.

(** The sender's socket towards 192.168.43.168:6000 and its camera. *)
Definition sender0 : Sender.SenderSocket :=
  {| Sender.socket_handle_ := 200;
     Sender.receiver_addr_ :=
       {| sin_family := AF_INET; sin_port := htons 6000;
          sin_addr := 0xA82BA8C0 |} |}.

Definition camera0 : VideoCapture :=
  {| capture_ := 0; scale_ := 6 # 10; show_video_ := false |}.

(** The calls of a session of the threaded receiver whose [bind] fails
    with [status]: the socket [handle] was created and switched to
    non-blocking mode ([mode] is what [ioctlsocket] returned). *)
Definition bind_failure_calls (port handle mode status : Z)
  : list io_event :=
  let socket_addr :=
    {| sin_family := AF_INET; sin_port := htons port;
       sin_addr := htonl INADDR_ANY |} in
  [ Call (WSAStartup (MAKEWORD 2 2)) 0;
    Call (Socket AF_INET SOCK_DGRAM 0) handle;
    Call (Ioctlsocket handle FIONBIO 1) mode;
    Call (Bind handle socket_addr sizeof_sockaddr_in) status;
    Call (Cerr "Binding failed. Could not bind the socket.") tt;
    Call (Cerr "Could not bind socket.") tt ].

(** The calls of a session of the threaded receiver up to the head of its
    loop, when [bind] succeeds with [status]. *)
Definition listening_calls (port handle mode status : Z) : list io_event :=
  let socket_addr :=
    {| sin_family := AF_INET; sin_port := htons port;
       sin_addr := htonl INADDR_ANY |} in
  [ Call (WSAStartup (MAKEWORD 2 2)) 0;
    Call (Socket AF_INET SOCK_DGRAM 0) handle;
    Call (Ioctlsocket handle FIONBIO 1) mode;
    Call (Bind handle socket_addr sizeof_sockaddr_in) status;
    Call (Cout ("Listening on port " ++ to_string port ++ ".")%string) tt ].

(** The threaded receiver's process: [main] starts the three sessions,
    the session of port 5000 binds and listens, then the bind of port
    4000 fails. *)
Definition bind_failure_trace : list plabel :=
  [ L_spawn 0 (fn_receive 4000 "Streaming Video 0");
    L_spawn 0 (fn_receive 5000 "Streaming Video 1");
    L_spawn 0 (fn_receive 6000 "Streaming Video 2") ]
  ++ List.map (L_call 2) (listening_calls 5000 101 0 0)
  ++ List.map (L_call 1) (bind_failure_calls 4000 100 0 (-1))
  ++ [ L_exit 1 (-1) ].

(** ** Turns of the loops, call by call *)

(** The vector [GetPacket] builds from what [recvfrom] answered. *)
Definition packet_of (s : ReceiverSocket) (rcv : Z * bytes) : bytes :=
  if fst rcv >? 0
  then [] ++ firstn (Z.to_nat (fst rcv)) (buffer_ (record_received s (snd rcv)))
  else [].

(** The calls of [Display] in the threaded receiver on a frame that holds
    [image]. *)
Definition display_calls (kWindowName : string) (image : Mat)
           (sys : SYSTEMTIME) (drawn : Mat) (key : Z) : list io_event :=
  [ Call (NamedWindow kWindowName CV_WINDOW_NORMAL) tt;
    Call GetLocalTime sys;
    Call (PutText image (clock_text sys) (16, 40)
            FONT_HERSHEY_COMPLEX_SMALL (16 # 10) (0, 0, 255) 2) drawn;
    Call (Imshow kWindowName drawn) tt;
    Call (WaitKey kDisplayDelayTimeMS) key ].

(** The four turns the threaded receiver's loop can take from the socket
    [s] in the window [w]: nothing arrived; something arrived but left no
    packet; a packet the decoder made no image of; a packet shown. *)
Inductive threaded_turn (w : string) (s : ReceiverSocket)
  : list io_event -> ReceiverSocket * BasicProtocolData -> Prop :=
| turn_quiet a :
    FD_ISSET (socket_handle_ s) (q_readfds a) = false ->
    threaded_turn w s (fallback_trace s w a) (s, BasicProtocolData_new)
| turn_no_packet sel rcv :
    FD_ISSET (socket_handle_ s) (snd sel) = true ->
    packet_of s rcv = [] ->
    threaded_turn w s (failed_receive_trace s sel rcv)
                  (record_received s (snd rcv), BasicProtocolData_new)
| turn_not_decoded sel rcv image :
    FD_ISSET (socket_handle_ s) (snd sel) = true ->
    packet_of s rcv <> [] ->
    Mat_empty image = true ->
    threaded_turn w s
      (failed_receive_trace s sel rcv
       ++ [Call (Imdecode (packet_of s rcv) IMREAD_COLOR) image])
      (record_received s (snd rcv),
       {| video_frame_ := {| frame_image_ := image |} |})
| turn_shown sel rcv image sys drawn key :
    FD_ISSET (socket_handle_ s) (snd sel) = true ->
    packet_of s rcv <> [] ->
    Mat_empty image = false ->
    threaded_turn w s
      (failed_receive_trace s sel rcv
       ++ Call (Imdecode (packet_of s rcv) IMREAD_COLOR) image
       :: display_calls w image sys drawn key)
      (record_received s (snd rcv),
       {| video_frame_ := {| frame_image_ := drawn |} |}).

(** A call on a window names the window [w]. *)
Definition on_window (w : string) (ev : io_event) : Prop :=
  match ev with
  | Call e _ =>
      match e with
      | NamedWindow winname _ => winname = w
      | Imshow winname _ => winname = w
      | _ => True
      end
  end.

(** [imdecode] is not handed an empty buffer. *)
Definition decodes_something (ev : io_event) : Prop :=
  match ev with
  | Call e _ =>
      match e with
      | Imdecode buf _ => buf <> []
      | _ => True
      end
  end.

Definition is_select (ev : io_event) : bool :=
  match ev with
  | Call e _ =>
      match e with
      | Select _ _ _ => true
      | _ => false
      end
  end.

Definition is_recvfrom (ev : io_event) : bool :=
  match ev with
  | Call e _ =>
      match e with
      | Recvfrom _ _ _ => true
      | _ => false
      end
  end.

Definition is_sendto (ev : io_event) : bool :=
  match ev with
  | Call e _ =>
      match e with
      | Sendto _ _ _ _ _ _ => true
      | _ => false
      end
  end.

(** A call that opens, paints or services a window. *)
Definition is_window_call (ev : io_event) : bool :=
  match ev with
  | Call e _ =>
      match e with
      | NamedWindow _ _ => true
      | Imshow _ _ => true
      | WaitKey _ => true
      | _ => false
      end
  end.

(** The lines a run wrote to stderr. *)
Definition stderr_lines (tr : list io_event) : list string :=
  flat_map (fun ev =>
              match ev with
              | Call e _ =>
                  match e with
                  | Cerr line => [line]
                  | _ => []
                  end
              end) tr.

(** The two turns of the single-window receiver's loop from the socket
    [s]: the packet, empty or not, goes to the decoder; what decodes to an
    image is shown. *)
Inductive single_turn (s : ReceiverSocket)
  : list io_event -> ReceiverSocket * BasicProtocolData -> Prop :=
| single_not_shown rcv image :
    Mat_empty image = true ->
    single_turn s
      [ Call (Recvfrom (socket_handle_ s) kMaxPacketBufferSize 0) rcv;
        Call (Imdecode (packet_of s rcv) IMREAD_COLOR) image ]
      (record_received s (snd rcv),
       {| video_frame_ := {| frame_image_ := image |} |})
| single_shown rcv image sys drawn key :
    Mat_empty image = false ->
    single_turn s
      (Call (Recvfrom (socket_handle_ s) kMaxPacketBufferSize 0) rcv
       :: Call (Imdecode (packet_of s rcv) IMREAD_COLOR) image
       :: display_calls Receiver.kWindowName image sys drawn key)
      (record_received s (snd rcv),
       {| video_frame_ := {| frame_image_ := drawn |} |}).

(** What the sender adds to the local time before printing it, in the
    100 ns units of [FILETIME]: [offset_sec] seconds and [offset_ms]
    milliseconds. *)
Definition time_shift : Z := (-2 * 1000 + 10) * 10000.

(** The calls of [GetFrameFromCamera] in the sender when the camera is
    open and nothing is previewed. *)
Definition capture_calls (vc : VideoCapture) (raw resized : Mat)
           (sys : SYSTEMTIME) (ft : Z) (shifted : SYSTEMTIME) (stamped : Mat)
  : list io_event :=
  [ Call (IsOpened (capture_ vc)) true;
    Call (CaptureRead (capture_ vc)) raw ]
  ++ (if Qltb (scale_ vc) 1
      then [Call (Resize raw (0, 0) (scale_ vc) (scale_ vc)) resized]
      else [])
  ++ [ Call GetLocalTime sys;
       Call (SystemTimeToFileTime sys) ft;
       Call (FileTimeToSystemTime (Sender.wrap_int64 (ft + time_shift))) shifted;
       Call (PutText (if Qltb (scale_ vc) 1 then resized else raw)
               (clock_text shifted) (16, 100)
               FONT_HERSHEY_COMPLEX_SMALL (16 # 10) (0, 255, 0) 2) stamped ].

(** The calls of [socket.SendPacket(protocol_data.PackageData())] in the
    sender when the stored frame holds [image]. *)
Definition send_calls (socket : Sender.SenderSocket) (image : Mat)
           (encoded : bool) (jpeg : bytes) (sent : Z) : list io_event :=
  [ Call (Imencode kJPEGExtension image
            [IMWRITE_JPEG_QUALITY; Sender.kJPEGQuality]) (encoded, jpeg);
    Call (Sendto (Sender.socket_handle_ socket) jpeg
            (Z.of_nat (List.length jpeg)) 0
            (Sender.receiver_addr_ socket) sizeof_sockaddr_in) sent ].

(** The two turns of the sender's loop without preview: the camera is
    closed and the empty frame is encoded, or a frame is captured, stamped
    and encoded. *)
Inductive sender_turn (socket : Sender.SenderSocket) (vc : VideoCapture)
  : list io_event -> VideoCapture * BasicProtocolData -> Prop :=
| send_nothing_captured encoded jpeg sent :
    sender_turn socket vc
      ([ Call (IsOpened (capture_ vc)) false;
         Call (Cerr "Could not get frame. Camera not available.") tt ]
       ++ send_calls socket Mat_default encoded jpeg sent)
      (vc, BasicProtocolData_new)
| send_captured raw resized sys ft shifted stamped encoded jpeg sent :
    sender_turn socket vc
      (capture_calls vc raw resized sys ft shifted stamped
       ++ send_calls socket stamped encoded jpeg sent)
      (vc, {| video_frame_ := {| frame_image_ := stamped |} |}).

(** [ioctlsocket] does not fail. *)
Definition ioctl_succeeds (ev : io_event) : Prop :=
  match ev with
  | Call e x =>
      match e in ioE X return X -> Prop with
      | Ioctlsocket _ _ _ => fun rev => rev <> SOCKET_ERROR
      | _ => fun _ => True
      end x
  end.

(** A call that waits for or takes a datagram. *)
Definition is_poll (ev : io_event) : bool := is_select ev || is_recvfrom ev.

(** What [main] of the threaded receiver does before it returns, as
    steps of thread 0: it starts the three sessions, detaches the handles
    [h1], [h2] and [h3] and waits for a key. *)
Definition main_steps (h1 h2 h3 : nat) (paused : Z) : list plabel :=
  [ L_spawn 0 (fn_receive 4000 "Streaming Video 0");
    L_spawn 0 (fn_receive 5000 "Streaming Video 1");
    L_spawn 0 (fn_receive 6000 "Streaming Video 2");
    L_call 0 (Call (ThreadDetach h1) tt);
    L_call 0 (Call (ThreadDetach h2) tt);
    L_call 0 (Call (ThreadDetach h3) tt);
    L_call 0 (Call (System "pause") paused) ].

(** An execution of the threaded receiver in which two sessions start
    up while [main] is still starting and detaching the others. *)
Definition interleaved_start : list plabel :=
  [ L_spawn 0 (fn_receive 4000 "Streaming Video 0");
    L_call 1 (Call (WSAStartup (MAKEWORD 2 2)) 0);
    L_spawn 0 (fn_receive 5000 "Streaming Video 1");
    L_spawn 0 (fn_receive 6000 "Streaming Video 2");
    L_call 0 (Call (ThreadDetach 1) tt);
    L_call 3 (Call (WSAStartup (MAKEWORD 2 2)) 0);
    L_call 0 (Call (ThreadDetach 2) tt);
    L_call 0 (Call (ThreadDetach 3) tt);
    L_call 0 (Call (System "pause") 0) ].

(** ** Facts about runs *)

Lemma runs_observe {R} (a b c : itree ioE R) tr :
  observe a = observe b -> runs b tr c -> runs a tr c.
Proof.
  intros E H. destruct H.
  - apply runs_done. congruence.
  - eapply runs_tau; [rewrite E; eassumption | assumption].
  - eapply runs_call; [rewrite E; eassumption | assumption].
Qed.

Lemma runs_app {R} (a b c : itree ioE R) tr1 tr2 :
  runs a tr1 b -> runs b tr2 c -> runs a (tr1 ++ tr2) c.
Proof.
  induction 1 as [t u E | t t' tr u E _ IH | t X e k x tr u E _ IH]; intros H2.
  - simpl. eapply runs_observe; eassumption.
  - eapply runs_tau; [exact E | auto].
  - simpl. eapply runs_call; [exact E | auto].
Qed.

Lemma runs_bind {R S} (t u : itree ioE R) (k : R -> itree ioE S) tr r :
  runs t tr u -> observe u = RetF r -> runs (ITree.bind t k) tr (k r).
Proof.
  induction 1 as [t u E | t t' tr u E _ IH | t X e h x tr u E _ IH]; intros Hr.
  - apply runs_done. rewrite observe_bind, E, Hr. reflexivity.
  - eapply runs_tau; [rewrite observe_bind, E; reflexivity | auto].
  - eapply runs_call; [rewrite observe_bind, E; reflexivity | cbn; auto].
Qed.

(** A turn of a [while (true)] loop that returns brings the loop back to
    its head. *)
Lemma runs_loop {I R} (cycle : I -> itree ioE I) (st st' : I) u tr :
  runs (cycle st) tr u -> observe u = RetF st' ->
  runs (ITree.iter (R := R) (fun st => st <- cycle st ;; Ret (inl st)) st) tr
       (ITree.iter (fun st => st <- cycle st ;; Ret (inl st)) st').
Proof.
  intros H Hu.
  set (body := fun st => st <- cycle st ;; Ret (inl st)).
  set (K := fun lr : I + R =>
              match lr with
              | inl l => Tau (ITree.iter body l)
              | inr r => Ret r
              end).
  apply runs_observe with (b := ITree.bind (body st) K); [reflexivity |].
  replace tr with (tr ++ []) by apply app_nil_r.
  eapply runs_app.
  - apply runs_bind with (u := Ret (inl st')); [| reflexivity].
    unfold body. apply (runs_bind _ _ (fun st => Ret (inl st)) _ _ H Hu).
  - eapply runs_tau; [reflexivity | apply runs_done; reflexivity].
Qed.

Lemma wp_mono {R} ok (Q Q' : list io_event -> R -> Prop) t :
  wp ok Q t -> (forall tr r, Q tr r -> Q' tr r) -> wp ok Q' t.
Proof.
  intros H. revert Q'.
  induction H as [Q t r E HQ | Q t t' E _ IH | Q t X e k E Hx _ IH]; intros Q' HQQ.
  - eapply wp_ret; eauto.
  - eapply wp_tau; eauto.
  - eapply wp_call; eauto.
Qed.

Lemma runs_bind_ret {R S} (r : R) (k : R -> itree ioE S) tr u :
  runs (k r) tr u -> runs (ITree.bind (Ret r) k) tr u.
Proof. apply runs_observe. reflexivity. Qed.

(** ** Facts about [wp] *)

Lemma wp_observe {R} ok (Q : list io_event -> R -> Prop) a b :
  observe a = observe b -> wp ok Q b -> wp ok Q a.
Proof.
  intros E H. destruct H.
  - eapply wp_ret; [rewrite E; eassumption | assumption].
  - eapply wp_tau; [rewrite E; eassumption | assumption].
  - eapply wp_call; [rewrite E; eassumption | assumption | assumption].
Qed.

Lemma wp_bind_ret {R S} ok (Q : list io_event -> S -> Prop) (r : R) k :
  wp ok Q (k r) -> wp ok Q (ITree.bind (Ret r) k).
Proof. apply wp_observe. reflexivity. Qed.

(** The calls [wp] collects are the calls of a run that returns. *)
Lemma wp_runs {R} ok (Q : list io_event -> R -> Prop) t :
  wp ok Q t ->
  wp ok (fun tr r => Q tr r /\ exists u, runs t tr u /\ observe u = RetF r) t.
Proof.
  induction 1 as [Q t r E HQ | Q t t' E _ IH | Q t X e k E Hx _ IH].
  - eapply wp_ret; [exact E |].
    split; [exact HQ |]. exists t. split; [apply runs_done; reflexivity | exact E].
  - eapply wp_tau; [exact E |].
    eapply wp_mono; [exact IH |].
    intros tr r [HQ [u [Hu Hr]]]. split; [exact HQ |].
    exists u. split; [eapply runs_tau; eassumption | exact Hr].
  - eapply wp_call; [exact E | exact Hx |].
    intros x Hok. eapply wp_mono; [exact (IH x Hok) |].
    intros tr r [HQ [u [Hu Hr]]]. split; [exact HQ |].
    exists u. split; [eapply runs_call; eassumption | exact Hr].
Qed.

(** Every run that returns under answers within [ok] is one [wp] spoke
    about. *)
Lemma wp_sound {R} ok (Q : list io_event -> R -> Prop) (t : itree ioE R) :
  wp ok Q t ->
  forall tr u r,
    runs t tr u -> observe u = RetF r -> Forall ok tr -> Q tr r.
Proof.
  induction 1 as [Q t r E HQ | Q t t' E _ IH | Q t X e k E Hx _ IH];
    intros tr u r0 Hrun Hu Hok.
  - inversion Hrun as [a b E' | a a' tr' b E' _ | a X' e' k' x' tr' b E' _];
      subst; rewrite E in E'; try discriminate.
    rewrite Hu in E'. injection E' as ->. exact HQ.
  - inversion Hrun as [a b E' | a a' tr' b E' Hrun' | a X' e' k' x' tr' b E' _];
      subst; rewrite E in E'; try discriminate.
    + rewrite Hu in E'. discriminate.
    + injection E' as <-. eapply IH; eassumption.
  - inversion Hrun as [a b E' | a a' tr' b E' _ | a X' e' k' x' tr' b E' Hrun'];
      subst; rewrite E in E'; try discriminate.
    + rewrite Hu in E'. discriminate.
    + inversion E'. subst.
      repeat match goal with
             | H : existT _ _ _ = existT _ _ _ |- _ => apply inj_pair2 in H
             end.
      subst. inversion Hok as [| ev evs Hev Hevs]; subst.
      eapply IH; eassumption.
Qed.

(** A turn that always returns always brings its loop back to the head. *)
Lemma wp_loop {I R} ok (Q : list io_event -> I -> Prop)
      (cycle : I -> itree ioE I) (st : I) :
  wp ok Q (cycle st) ->
  wp ok (fun tr st' =>
           Q tr st' /\
           runs (ITree.iter (R := R) (fun st => st <- cycle st ;; Ret (inl st)) st)
                tr
                (ITree.iter (fun st => st <- cycle st ;; Ret (inl st)) st'))
     (cycle st).
Proof.
  intros H. eapply wp_mono; [exact (wp_runs _ _ _ H) |].
  intros tr st' [HQ [u [Hu Hr]]]. split; [exact HQ |].
  eapply runs_loop; eassumption.
Qed.

(** ** Proof steps *)

(** [push_ret t]: the tree [t] with every answered call on its left spine
    handed to its continuation; the result has the same first step. *)
Ltac push_ret t :=
  let t := eval cbv beta iota zeta delta [negb] in t in
  lazymatch t with
  | ITree.bind (Ret ?x) ?k => push_ret (k x)
  | ITree.subst ?k (Ret ?x) => push_ret (k x)
  | ITree.bind ?a ?k =>
      let a' := push_ret a in
      lazymatch a' with
      | Ret ?x => push_ret (k x)
      | _ => constr:(ITree.bind a' k)
      end
  | ITree.subst ?k ?a =>
      let a' := push_ret a in
      lazymatch a' with
      | Ret ?x => push_ret (k x)
      | _ => constr:(ITree.bind a' k)
      end
  | _ => t
  end.

(** Compute the first step of a tree, unfolding the tree combinators only. *)
Ltac first_step :=
  cbn [observe _observe ITree.bind ITree.subst ITree.trigger ITree.iter
       call exit];
  reflexivity.

Ltac wp_norm :=
  match goal with
  | |- wp ?ok ?Q ?t =>
      let t' := push_ret t in
      apply (wp_observe ok Q t t'); [reflexivity |];
      cbn [video_frame_ frame_image_ GetImage SetImage]
  end.

Tactic Notation "wp_step" "as" simple_intropattern(x) simple_intropattern(H) :=
  wp_norm;
  eapply wp_call; [first_step | reflexivity | intros x H; cbn beta].

Tactic Notation "wp_step" := wp_step as ? ?.

Ltac wp_done := wp_norm; eapply wp_ret; [first_step | cbn beta].

Ltac run_norm :=
  match goal with
  | |- runs ?t ?tr ?u =>
      let t' := push_ret t in
      apply (runs_observe t t' u tr); [reflexivity |];
      cbn [video_frame_ frame_image_ GetImage SetImage]
  end.

Ltac run_step := run_norm; eapply runs_call; [first_step | cbn beta].

Ltac run_done := run_norm; apply runs_done; reflexivity.


(** A program is deterministic in the answers it receives: two runs over
    the same calls differ by silent steps only. *)
Lemma runs_det {R} (t u u' : itree ioE R) tr :
  runs t tr u -> runs t tr u' -> runs u [] u' \/ runs u' [] u.
Proof.
  induction 1 as [t u E | t t' tr u E H IH | t X e k x tr u E H IH]; intros H'.
  - left. eapply runs_observe; [symmetry; exact E | exact H'].
  - inversion H' as [a b E' | a a' tr' b E' H'' | a X' e' k' x' tr' b E' H'']; subst.
    + right. eapply runs_tau; [rewrite <- E'; exact E | exact H].
    + rewrite E in E'. injection E' as <-. auto.
    + rewrite E in E'. discriminate.
  - inversion H' as [a b E' | a a' tr' b E' H'' | a X' e' k' x' tr' b E' H'' Ha Htr]; subst.
    + rewrite E in E'. discriminate.
    + rewrite E in E'. inversion E'. subst.
      repeat match goal with
             | H : existT _ _ _ = existT _ _ _ |- _ => apply inj_pair2 in H
             end.
      subst. auto.
Qed.

Lemma silent_from_terminated {R} (a b : itree ioE R) :
  runs a [] b -> terminated a -> observe a = observe b.
Proof.
  intros H Ha. unfold terminated in Ha.
  inversion H as [x y E | x x' tr y E H' |]; subst.
  - exact E.
  - rewrite E in Ha. contradiction.
Qed.

(** A session that stands at a call other than [exit] after [tr] has not
    ended by [tr]. *)
Lemma alive_after {R} (session head : itree ioE R) tr X (e : ioE X) k :
  runs session tr head ->
  observe head = VisF e k ->
  is_exit e = false ->
  ~ session_ends_after session tr.
Proof.
  intros Hrun Hhead Hexit [u [Hu Hterm]].
  assert (Hobs : observe u = observe head).
  { destruct (runs_det _ _ _ _ Hrun Hu) as [H | H].
    - inversion H as [x y E | x x' tr' y E H' |]; subst.
      + symmetry. exact E.
      + rewrite Hhead in E. discriminate.
    - apply silent_from_terminated; assumption. }
  unfold terminated in Hterm. rewrite Hobs, Hhead in Hterm. congruence.
Qed.

Lemma firstn_bound (n : Z) (l : bytes) :
  n <= kMaxPacketBufferSize ->
  Z.of_nat (List.length (firstn (Z.to_nat n) l)) <= kMaxPacketBufferSize.
Proof.
  intros H. rewrite length_firstn. unfold kMaxPacketBufferSize in *. lia.
Qed.

Lemma fresh_buffer_size (size : Z) :
  0 <= size -> Z.of_nat (List.length (fresh_buffer size)) = size.
Proof.
  intros H. unfold fresh_buffer. rewrite repeat_length. lia.
Qed.

Lemma received_into_size (received buffer : bytes) :
  List.length (received_into received buffer) = List.length buffer.
Proof.
  unfold received_into. rewrite length_firstn, length_app, length_skipn. lia.
Qed.

(** ** Displaying nothing *)

(** C6.  [Display] on a frame that holds the empty image returns at once:
    it makes no call at all (no window is opened or updated) and the frame
    comes back unchanged.  This holds for the single-window receiver, for
    the named-window variant and for the sender's preview. *)
Theorem C6_display_of_empty_frame_is_noop (frame : VideoFrame)
        (kWindowName : string) :
  Mat_empty (frame_image_ frame) = true ->
  Receiver.Display frame = Ret frame
  /\ MultiReceiver.Display kWindowName frame = Ret frame
  /\ Sender.Display frame = Ret frame.
Proof.
  intros H.
  unfold Receiver.Display, MultiReceiver.Display, Sender.Display.
  rewrite H. auto.
Qed.

Lemma C6_display_of_empty_frame_is_noop_witness :
  Receiver.Display VideoFrame_new = Ret VideoFrame_new
  /\ MultiReceiver.Display "Streaming Video 0" VideoFrame_new = Ret VideoFrame_new
  /\ Sender.Display VideoFrame_new = Ret VideoFrame_new.
Proof.
  apply (C6_display_of_empty_frame_is_noop VideoFrame_new "Streaming Video 0").
  reflexivity.
Defined.

(** ** Sending *)

(** C7.  [socket.SendPacket(protocol_data.PackageData())] makes two calls:
    [imencode] on the stored frame, then one [sendto] whose buffer is the
    encoder's output and whose length is that output's length.  The
    datagram body is therefore the JPEG octets, all of them and nothing
    else. *)
Theorem C7_datagram_is_the_encoded_frame
        (socket : Sender.SenderSocket) (pd : BasicProtocolData) :
  wp any_answer
     (fun tr _ =>
        exists encoded jpeg sent,
          tr = [ Call (Imencode kJPEGExtension (frame_image_ (video_frame_ pd))
                         [IMWRITE_JPEG_QUALITY; Sender.kJPEGQuality])
                      (encoded, jpeg);
                 Call (Sendto (Sender.socket_handle_ socket) jpeg
                         (Z.of_nat (List.length jpeg)) 0
                         (Sender.receiver_addr_ socket) sizeof_sockaddr_in)
                      sent ]
          /\ sent_datagram jpeg (Z.of_nat (List.length jpeg)) = jpeg)
     (Sender.send_frame socket pd).
Proof.
  unfold Sender.send_frame, PackageData, GetJPEG, Sender.SendPacket.
  wp_step as [encoded jpeg] _.
  wp_step as sent _. wp_done.
  exists encoded, jpeg, sent. split; [reflexivity |].
  unfold sent_datagram. rewrite Nat2Z.id. apply firstn_all.
Qed.

(** ** Receiving *)

(** C8.  Whenever [recvfrom] keeps to the length it is given, the vector
    [GetPacket] returns has at most 65535 octets, in each of the three
    programs; the length given is [kMaxPacketBufferSize], the buffer of a
    new socket has exactly that many cells, and receiving keeps it so. *)
Theorem C8_packet_at_most_65535_bytes :
  kMaxPacketBufferSize = 65535
  /\ (forall s,
        wp recvfrom_bounded
           (fun tr r =>
              Z.of_nat (List.length (snd r)) <= 65535
              /\ List.length (buffer_ (fst r)) = List.length (buffer_ s)
              /\ exists a,
                   tr = [Call (Recvfrom (socket_handle_ s) kMaxPacketBufferSize 0) a])
           (Receiver.GetPacket s))
  /\ (forall s kWindowName,
        wp recvfrom_bounded
           (fun _ r =>
              Z.of_nat (List.length (snd r)) <= 65535
              /\ List.length (buffer_ (fst r)) = List.length (buffer_ s))
           (MultiReceiver.GetPacket s kWindowName))
  /\ (forall s,
        wp recvfrom_bounded
           (fun _ r => Z.of_nat (List.length (snd r)) <= 65535)
           (Sender.GetPacket s))
  /\ (forall port_number,
        wp any_answer
           (fun _ s => Z.of_nat (List.length (buffer_ s)) = 65535)
           (ReceiverSocket_new port_number)).
Proof.
  assert (Hle : forall num_bytes (buffer : bytes),
             num_bytes <= kMaxPacketBufferSize ->
             Z.of_nat (List.length
                         (if num_bytes >? 0
                          then [] ++ firstn (Z.to_nat num_bytes) buffer
                          else [])) <= 65535).
  { intros num_bytes buffer H.
    destruct (num_bytes >? 0); cbn [app List.length]; [apply firstn_bound; exact H | lia]. }
  split; [reflexivity |].
  split; [| split; [| split]].
  - intros s. unfold Receiver.GetPacket, GetPacket_blocking.
    wp_step as [num_bytes received] H. cbn in H.
    wp_done. cbn [fst snd]. split; [| split].
    + apply Hle. exact H.
    + apply received_into_size.
    + eexists. reflexivity.
  - intros s kWindowName. unfold MultiReceiver.GetPacket.
    wp_step as [SelectRcv rfd] _.
    wp_norm. destruct (FD_ISSET (socket_handle_ s) rfd).
    + wp_step as [num_bytes received] H. cbn in H.
      wp_done. cbn [fst snd]. split.
      * apply Hle. exact H.
      * apply received_into_size.
    + do 4 wp_step. wp_done. cbn. split; [lia | reflexivity].
  - intros s. unfold Sender.GetPacket, GetPacket_blocking.
    wp_step as [num_bytes received] H. cbn in H.
    wp_done. cbn [snd]. apply Hle. exact H.
  - intros port_number. unfold ReceiverSocket_new.
    wp_step. wp_done. cbn [buffer_]. apply fresh_buffer_size.
    unfold kMaxPacketBufferSize. lia.
Qed.
Lemma no_data (num_bytes : Z) (buffer : bytes) :
  num_bytes <= 0 ->
  (if num_bytes >? 0
   then [] ++ firstn (Z.to_nat num_bytes) buffer
   else []) = [].
Proof.
  intros H. destruct (Z.gtb_spec num_bytes 0) as [Hgt | _]; [lia | reflexivity].
Qed.

(** A turn of the single-window receiver without payload returns. *)
Lemma no_data_cycle_single (st : ReceiverSocket * BasicProtocolData) :
  wp recvfrom_nonpositive (fun _ _ => True) (Receiver.receive_cycle st).
Proof.
  destruct st as [socket pd].
  unfold Receiver.receive_cycle, Receiver.GetPacket, GetPacket_blocking,
    Receiver.UnpackData, VideoFrame_of_bytes, Receiver.Display.
  wp_step as [num_bytes received] H. cbn in H.
  wp_norm. rewrite (no_data _ _ H).
  wp_step as image _.
  wp_norm. destruct (Mat_empty image).
  - wp_done. exact I.
  - do 5 wp_step. wp_done. exact I.
Qed.

(** A turn of the threaded receiver without payload returns with the
    empty frame in the slot. *)
Lemma no_data_cycle_threaded (kWindowName_id : string)
      (st : ReceiverSocket * BasicProtocolData) :
  wp recvfrom_nonpositive
     (fun _ st' => snd st' = BasicProtocolData_new)
     (MultiReceiver.receive_cycle kWindowName_id st).
Proof.
  destruct st as [socket pd].
  unfold MultiReceiver.receive_cycle, MultiReceiver.GetPacket,
    MultiReceiver.UnpackData, MultiReceiver.Display.
  wp_step as [SelectRcv rfd] _.
  wp_norm. destruct (FD_ISSET (socket_handle_ socket) rfd).
  - wp_step as [num_bytes received] H. cbn in H.
    wp_norm. rewrite (no_data _ _ H).
    wp_norm. change (Mat_empty (frame_image_ VideoFrame_new)) with true.
    wp_done. reflexivity.
  - do 4 wp_step.
    wp_norm. change (Mat_empty (frame_image_ VideoFrame_new)) with true.
    wp_done. reflexivity.
Qed.

(** C10.  Whenever [recvfrom] reports a non-positive count (an error or a
    zero-length datagram), [GetPacket] returns the empty vector, in each of
    the three programs; in the threaded receiver a timeout returns the
    empty vector too.  The turn of the receive loop in which this happens
    returns, and the loop is back at its head: the session has not ended. *)
Theorem C10_nonpositive_recvfrom_gives_no_data :
  (forall s,
      wp recvfrom_nonpositive (fun _ r => snd r = []) (Receiver.GetPacket s))
  /\ (forall s kWindowName,
        wp recvfrom_nonpositive (fun _ r => snd r = [])
           (MultiReceiver.GetPacket s kWindowName))
  /\ (forall s,
        wp recvfrom_nonpositive (fun _ r => snd r = []) (Sender.GetPacket s))
  /\ (forall st,
        wp recvfrom_nonpositive
           (fun tr st' =>
              runs (Receiver.receive_loop st) tr (Receiver.receive_loop st')
              /\ ~ session_ends_after (Receiver.receive_loop st) tr)
           (Receiver.receive_cycle st))
  /\ (forall kWindowName_id st,
        wp recvfrom_nonpositive
           (fun tr st' =>
              snd st' = BasicProtocolData_new
              /\ runs (MultiReceiver.receive_loop kWindowName_id st) tr
                      (MultiReceiver.receive_loop kWindowName_id st')
              /\ ~ session_ends_after
                     (MultiReceiver.receive_loop kWindowName_id st) tr)
           (MultiReceiver.receive_cycle kWindowName_id st)).
Proof.
  split; [| split; [| split; [| split]]].
  - intros s. unfold Receiver.GetPacket, GetPacket_blocking.
    wp_step as [num_bytes received] H. cbn in H.
    wp_done. cbn [snd]. apply no_data. exact H.
  - intros s kWindowName. unfold MultiReceiver.GetPacket.
    wp_step as [SelectRcv rfd] _.
    wp_norm. destruct (FD_ISSET (socket_handle_ s) rfd).
    + wp_step as [num_bytes received] H. cbn in H.
      wp_done. cbn [snd]. apply no_data. exact H.
    + do 4 wp_step. wp_done. reflexivity.
  - intros s. unfold Sender.GetPacket, GetPacket_blocking.
    wp_step as [num_bytes received] H. cbn in H.
    wp_done. cbn [snd]. apply no_data. exact H.
  - intros st.
    eapply wp_mono.
    + apply (wp_loop (R := Z) recvfrom_nonpositive (fun _ _ => True)
                     Receiver.receive_cycle st).
      apply no_data_cycle_single.
    + cbn beta. intros tr [socket' pd'] [_ Hrun].
      split; [exact Hrun |].
      eapply alive_after; [exact Hrun | cbn; reflexivity | reflexivity].
  - intros kWindowName_id st.
    eapply wp_mono.
    + apply (wp_loop (R := unit) recvfrom_nonpositive
                     (fun _ st' => snd st' = BasicProtocolData_new)
                     (MultiReceiver.receive_cycle kWindowName_id) st).
      apply no_data_cycle_threaded.
    + cbn beta. intros tr [socket' pd'] [Hpd Hrun].
      split; [exact Hpd |]. split; [exact Hrun |].
      eapply alive_after; [exact Hrun | cbn; reflexivity | reflexivity].
Qed.

(** ** The camera *)

(** C9.  When the camera is not opened, [GetFrameFromCamera] writes one
    line to stderr and returns the empty frame, in the single-window file
    and in the sender alike.  The sender's turn in which this happens
    stores that empty frame, hands the encoder's output for it to [sendto]
    and returns; the send loop is back at its head and the session has
    not ended. *)
Theorem C9_closed_camera_gives_empty_frame :
  (forall vc,
      wp camera_closed
         (fun tr frame =>
            frame = VideoFrame_new
            /\ tr = [ Call (IsOpened (capture_ vc)) false;
                      Call (Cerr "Could not get frame. Camera not available.") tt ])
         (Receiver.GetFrameFromCamera vc))
  /\ (forall vc,
        wp camera_closed
           (fun tr frame =>
              frame = VideoFrame_new
              /\ tr = [ Call (IsOpened (capture_ vc)) false;
                        Call (Cerr "Could not get frame. Camera not available.") tt ])
           (Sender.GetFrameFromCamera vc))
  /\ (forall socket vc pd,
        wp camera_closed
           (fun tr st' =>
              st' = (vc, BasicProtocolData_new)
              /\ runs (Sender.send_loop socket (vc, pd)) tr
                      (Sender.send_loop socket st')
              /\ ~ session_ends_after (Sender.send_loop socket (vc, pd)) tr)
           (Sender.send_cycle socket (vc, pd))).
Proof.
  split; [| split].
  - intros vc. unfold Receiver.GetFrameFromCamera.
    wp_step as opened H. cbn in H. subst opened.
    wp_step as [] _. wp_done. split; reflexivity.
  - intros vc. unfold Sender.GetFrameFromCamera.
    wp_step as opened H. cbn in H. subst opened.
    wp_step as [] _. wp_done. split; reflexivity.
  - intros socket vc pd.
    eapply wp_mono.
    + apply (wp_loop (R := unit) camera_closed
                     (fun _ st' => st' = (vc, BasicProtocolData_new))
                     (Sender.send_cycle socket) (vc, pd)).
      unfold Sender.send_cycle, Sender.GetFrameFromCamera, Sender.send_frame,
        PackageData, GetJPEG, Sender.SendPacket.
      wp_step as opened H. cbn in H. subst opened.
      wp_step as [] _.
      wp_step as [encoded jpeg] _.
      wp_step as sent _.
      wp_done. reflexivity.
    + cbn beta. intros tr st' [Hst Hrun].
      split; [exact Hst |]. split; [exact Hrun |]. subst st'.
      eapply alive_after; [exact Hrun | cbn; reflexivity | reflexivity].
Qed.

(** ** Nothing arrives *)

Lemma quiet_cycle (kWindowName_id : string) (s : ReceiverSocket)
      (pd : BasicProtocolData) (a : quiet_poll) :
  FD_ISSET (socket_handle_ s) (q_readfds a) = false ->
  runs (MultiReceiver.receive_cycle kWindowName_id (s, pd))
       (fallback_trace s kWindowName_id a)
       (Ret (s, BasicProtocolData_new)).
Proof.
  intros Hquiet.
  unfold MultiReceiver.receive_cycle, MultiReceiver.GetPacket,
    MultiReceiver.UnpackData, MultiReceiver.Display, fallback_trace.
  run_step. run_norm. rewrite Hquiet.
  do 4 run_step.
  run_norm. change (Mat_empty (frame_image_ VideoFrame_new)) with true.
  run_done.
Qed.

Lemma quiet_loop (kWindowName_id : string) (s : ReceiverSocket)
      (answers : list quiet_poll) :
  Forall (fun a => FD_ISSET (socket_handle_ s) (q_readfds a) = false) answers ->
  forall pd,
    runs (MultiReceiver.receive_loop kWindowName_id (s, pd))
         (flat_map (fallback_trace s kWindowName_id) answers)
         (MultiReceiver.receive_loop kWindowName_id
            (s, match answers with
                | [] => pd
                | _ :: _ => BasicProtocolData_new
                end)).
Proof.
  induction 1 as [| a answers Ha _ IH]; intros pd.
  - apply runs_done. reflexivity.
  - cbn [flat_map]. eapply runs_app.
    + apply (runs_loop (R := unit) (MultiReceiver.receive_cycle kWindowName_id)
               (s, pd) (s, BasicProtocolData_new)
               (Ret (s, BasicProtocolData_new))).
      * apply quiet_cycle. exact Ha.
      * reflexivity.
    + specialize (IH BasicProtocolData_new).
      destruct answers; exact IH.
Qed.

Lemma quiet_loop_shows (s : ReceiverSocket) (kWindowName_id : string)
      (answers : list quiet_poll) :
  List.length (filter is_imshow (flat_map (fallback_trace s kWindowName_id) answers))
  = List.length answers
  /\ waits (flat_map (fallback_trace s kWindowName_id) answers)
     = (1000 + kDisplayDelayTimeMS) * Z.of_nat (List.length answers).
Proof.
  induction answers as [| a answers [IHn IHw]].
  - split; reflexivity.
  - split.
    + cbn [flat_map fallback_trace app filter is_imshow List.length].
      rewrite IHn. reflexivity.
    + change (waits (flat_map (fallback_trace s kWindowName_id) (a :: answers)))
        with (1000 + (0 + (0 + (0 + (kDisplayDelayTimeMS
               + waits (flat_map (fallback_trace s kWindowName_id) answers)))))).
      rewrite IHw. cbn [List.length]. unfold kDisplayDelayTimeMS. lia.
Qed.

(** C3.  In the threaded receiver, a turn in which [select] reports
    nothing readable hands the fallback image to the display and
    [GetPacket] returns the empty vector.  [select] is given a wait of
    1 s, and it is the only call that may wait before the image is shown:
    the calls before [imshow] may wait 1000 ms together, the whole turn
    1000 ms plus the 15 ms display delay.  When every poll is quiet, every
    turn of the loop shows the fallback image once. *)
Theorem C3_timeout_shows_fallback_image :
  MultiReceiver.poll_timeout = {| tv_sec := 1; tv_usec := 0 |}
  /\ (forall s kWindowName,
        wp (no_message (socket_handle_ s))
           (fun tr r =>
              r = (s, []) /\ exists a, tr = fallback_trace s kWindowName a)
           (MultiReceiver.GetPacket s kWindowName))
  /\ (forall s kWindowName a,
        nth_error (fallback_trace s kWindowName a) 3
        = Some (Call (Imshow kWindowName (q_picture a)) tt)
        /\ waits (firstn 3 (fallback_trace s kWindowName a)) = 1000
        /\ waits (fallback_trace s kWindowName a) = 1000 + kDisplayDelayTimeMS)
  /\ (forall s kWindowName_id pd a answers,
        Forall (fun a => FD_ISSET (socket_handle_ s) (q_readfds a) = false)
               (a :: answers) ->
        let tr := flat_map (fallback_trace s kWindowName_id) (a :: answers) in
        runs (MultiReceiver.receive_loop kWindowName_id (s, pd)) tr
             (MultiReceiver.receive_loop kWindowName_id (s, BasicProtocolData_new))
        /\ List.length (filter is_imshow tr) = List.length (a :: answers)
        /\ waits tr
           = (1000 + kDisplayDelayTimeMS) * Z.of_nat (List.length (a :: answers))).
Proof.
  split; [reflexivity |].
  split; [| split].
  - intros s kWindowName. unfold MultiReceiver.GetPacket.
    wp_step as [SelectRcv rfd] H. cbn in H.
    wp_norm. rewrite H.
    wp_step as picture _. wp_step as [] _. wp_step as [] _. wp_step as key _.
    wp_done. split; [reflexivity |].
    exists {| q_select := SelectRcv; q_readfds := rfd;
              q_picture := picture; q_key := key |}.
    reflexivity.
  - intros s kWindowName a. repeat split.
  - intros s kWindowName_id pd a answers Hquiet tr.
    split; [| apply quiet_loop_shows].
    apply (quiet_loop kWindowName_id s (a :: answers) Hquiet pd).
Qed.

Lemma C3_timeout_shows_fallback_image_witness :
  let tr := flat_map (fallback_trace socket0 "Streaming Video 0") [quiet0; quiet0] in
  runs (MultiReceiver.receive_loop "Streaming Video 0"
          (socket0, {| video_frame_ := frame0 |}))
       tr
       (MultiReceiver.receive_loop "Streaming Video 0"
          (socket0, BasicProtocolData_new))
  /\ List.length (filter is_imshow tr) = 2%nat
  /\ waits tr = 2030.
Proof.
  apply (proj2 (proj2 (proj2 C3_timeout_shows_fallback_image))
           socket0 "Streaming Video 0"%string {| video_frame_ := frame0 |}
           quiet0 [quiet0]).
  repeat constructor.
Defined.

(** ** A receive that fails *)

Lemma failed_receive_cycle (kWindowName_id : string) (s : ReceiverSocket)
      (pd : BasicProtocolData) (sel : Z * fd_set) (rcv : Z * bytes) :
  FD_ISSET (socket_handle_ s) (snd sel) = true ->
  fst rcv <= 0 ->
  runs (MultiReceiver.receive_cycle kWindowName_id (s, pd))
       (failed_receive_trace s sel rcv)
       (Ret (record_received s (snd rcv), BasicProtocolData_new)).
Proof.
  destruct sel as [SelectRcv rfd], rcv as [num_bytes received].
  cbn [fst snd]. intros Hset Hfail.
  unfold MultiReceiver.receive_cycle, MultiReceiver.GetPacket,
    MultiReceiver.UnpackData, MultiReceiver.Display, failed_receive_trace.
  run_step. run_norm. rewrite Hset.
  run_step. run_norm.
  destruct (Z.gtb_spec num_bytes 0) as [Hgt | _]; [lia |].
  run_norm. change (Mat_empty (frame_image_ VideoFrame_new)) with true.
  run_done.
Qed.

Lemma receive_loop_alive (kWindowName_id : string)
      (st st' : ReceiverSocket * BasicProtocolData) tr :
  runs (MultiReceiver.receive_loop kWindowName_id st) tr
       (MultiReceiver.receive_loop kWindowName_id st') ->
  ~ session_ends_after (MultiReceiver.receive_loop kWindowName_id st) tr.
Proof.
  intros Hrun. destruct st' as [s' pd'].
  eapply alive_after; [exact Hrun | cbn; reflexivity | reflexivity].
Qed.

(** C4 as the code has it.  In the threaded receiver a failure of the
    receive channel is not fatal: when [recvfrom] reports an error or
    nothing, the turn stores the empty frame and the session is back at the
    head of its loop, as it is after a timeout; in neither case has the
    session ended. *)
Theorem C4_receive_failure_is_absorbed
        (kWindowName_id : string) (s : ReceiverSocket) (pd : BasicProtocolData)
        (sel : Z * fd_set) (rcv : Z * bytes) (a : quiet_poll) :
  FD_ISSET (socket_handle_ s) (snd sel) = true ->
  fst rcv <= 0 ->
  FD_ISSET (socket_handle_ s) (q_readfds a) = false ->
  let session := MultiReceiver.receive_loop kWindowName_id (s, pd) in
  runs session (failed_receive_trace s sel rcv)
       (MultiReceiver.receive_loop kWindowName_id
          (record_received s (snd rcv), BasicProtocolData_new))
  /\ ~ session_ends_after session (failed_receive_trace s sel rcv)
  /\ runs session (fallback_trace s kWindowName_id a)
          (MultiReceiver.receive_loop kWindowName_id (s, BasicProtocolData_new))
  /\ ~ session_ends_after session (fallback_trace s kWindowName_id a).
Proof.
  intros Hset Hfail Hquiet session.
  assert (Hfailed :
            runs session (failed_receive_trace s sel rcv)
                 (MultiReceiver.receive_loop kWindowName_id
                    (record_received s (snd rcv), BasicProtocolData_new))).
  { eapply (runs_loop (R := unit) (MultiReceiver.receive_cycle kWindowName_id));
      [apply failed_receive_cycle; assumption | reflexivity]. }
  assert (Hidle :
            runs session (fallback_trace s kWindowName_id a)
                 (MultiReceiver.receive_loop kWindowName_id
                    (s, BasicProtocolData_new))).
  { eapply (runs_loop (R := unit) (MultiReceiver.receive_cycle kWindowName_id));
      [apply quiet_cycle; assumption | reflexivity]. }
  split; [exact Hfailed |].
  split; [exact (receive_loop_alive _ _ _ _ Hfailed) |].
  split; [exact Hidle |].
  exact (receive_loop_alive _ _ _ _ Hidle).
Qed.

Lemma C4_receive_failure_is_absorbed_witness :
  let session :=
    MultiReceiver.receive_loop "Streaming Video 0"
      (socket0, {| video_frame_ := frame0 |}) in
  runs session (failed_receive_trace socket0 (1, [100]) (SOCKET_ERROR, []))
       (MultiReceiver.receive_loop "Streaming Video 0"
          (record_received socket0 [], BasicProtocolData_new))
  /\ ~ session_ends_after session
         (failed_receive_trace socket0 (1, [100]) (SOCKET_ERROR, []))
  /\ runs session (fallback_trace socket0 "Streaming Video 0" quiet0)
          (MultiReceiver.receive_loop "Streaming Video 0"
             (socket0, BasicProtocolData_new))
  /\ ~ session_ends_after session
         (fallback_trace socket0 "Streaming Video 0" quiet0).
Proof.
  apply (C4_receive_failure_is_absorbed "Streaming Video 0" socket0
           {| video_frame_ := frame0 |} (1, [100]) (SOCKET_ERROR, []) quiet0).
  - reflexivity.
  - unfold SOCKET_ERROR. simpl. lia.
  - reflexivity.
Defined.

(** C4 as stated fails: the session of port 4000 polls, finds its socket
    readable, [recvfrom] reports [SOCKET_ERROR], and the session has not
    ended. *)
Lemma C4_counterexample :
  ~ session_ends_after
      (MultiReceiver.receive_loop "Streaming Video 0"
         (socket0, {| video_frame_ := frame0 |}))
      (failed_receive_trace socket0 (1, [100]) (SOCKET_ERROR, [])).
Proof.
  apply (receive_loop_alive "Streaming Video 0"
           (socket0, {| video_frame_ := frame0 |})
           (record_received socket0 [], BasicProtocolData_new)).
  apply (runs_loop (R := unit) (MultiReceiver.receive_cycle "Streaming Video 0")
           (socket0, {| video_frame_ := frame0 |})
           (record_received socket0 [], BasicProtocolData_new)
           (Ret (record_received socket0 [], BasicProtocolData_new)));
    [| reflexivity].
  apply (failed_receive_cycle "Streaming Video 0" socket0
           {| video_frame_ := frame0 |} (1, [100]) (SOCKET_ERROR, [])).
  - reflexivity.
  - unfold SOCKET_ERROR. simpl. lia.
Qed.

(** ** The frame slot *)

(** C5 as the code has it.  The frame slot is written in every turn and
    never read before it is written: a turn started with another frame in
    the slot is the same program.  After a turn without payload (timeout,
    receive error, zero-length datagram) the slot holds the empty frame.
    After a turn in which a payload arrived and decoded to an image, the
    slot holds that image as it was displayed. *)
Theorem C5_slot_is_overwritten_every_turn :
  (forall kWindowName_id s pd pd',
      MultiReceiver.receive_cycle kWindowName_id (s, pd)
      = MultiReceiver.receive_cycle kWindowName_id (s, pd'))
  /\ (forall kWindowName_id st,
        wp recvfrom_nonpositive
           (fun _ st' => video_frame_ (snd st') = VideoFrame_new)
           (MultiReceiver.receive_cycle kWindowName_id st))
  /\ (forall kWindowName_id s pd sel num_bytes received b packet image sys
             drawn key,
        FD_ISSET (socket_handle_ s) (snd sel) = true ->
        0 < num_bytes ->
        firstn (Z.to_nat num_bytes) (buffer_ (record_received s received))
        = b :: packet ->
        Mat_empty image = false ->
        let h := socket_handle_ s in
        runs (MultiReceiver.receive_cycle kWindowName_id (s, pd))
             [ Call (Select (h + 1) (FD_SET h FD_ZERO) MultiReceiver.poll_timeout)
                    sel;
               Call (Recvfrom h kMaxPacketBufferSize 0) (num_bytes, received);
               Call (Imdecode (b :: packet) IMREAD_COLOR) image;
               Call (NamedWindow kWindowName_id CV_WINDOW_NORMAL) tt;
               Call GetLocalTime sys;
               Call (PutText image (clock_text sys) (16, 40)
                       FONT_HERSHEY_COMPLEX_SMALL (16 # 10) (0, 0, 255) 2)
                    drawn;
               Call (Imshow kWindowName_id drawn) tt;
               Call (WaitKey kDisplayDelayTimeMS) key ]
             (Ret (record_received s received,
                   {| video_frame_ := {| frame_image_ := drawn |} |}))).
Proof.
  split; [reflexivity |].
  split.
  - intros kWindowName_id st.
    eapply wp_mono; [apply no_data_cycle_threaded |].
    cbn beta. intros tr st' Hpd. rewrite Hpd. reflexivity.
  - intros kWindowName_id s pd [SelectRcv rfd] num_bytes received b packet image
           sys drawn key Hset Hpos Hpacket Hfull h.
    cbn [snd] in Hset. subst h.
    unfold MultiReceiver.receive_cycle, MultiReceiver.GetPacket,
      MultiReceiver.UnpackData, MultiReceiver.Display, VideoFrame_of_bytes.
    run_step. run_norm. rewrite Hset.
    run_step. run_norm.
    destruct (Z.gtb_spec num_bytes 0) as [_ | Hle]; [| lia].
    cbn [app]. rewrite Hpacket.
    run_step. run_norm. rewrite Hfull.
    do 5 run_step. run_done.
Qed.

Lemma C5_slot_is_overwritten_every_turn_witness :
  runs (MultiReceiver.receive_cycle "Streaming Video 0"
          (socket0, BasicProtocolData_new))
       [ Call (Select 101 [100] MultiReceiver.poll_timeout) (1, [100]);
         Call (Recvfrom 100 kMaxPacketBufferSize 0) (3, [x01; x02; x03]);
         Call (Imdecode [x01; x02; x03] IMREAD_COLOR) picture0;
         Call (NamedWindow "Streaming Video 0" CV_WINDOW_NORMAL) tt;
         Call GetLocalTime
              {| wYear := 2019; wMonth := 5; wDayOfWeek := 1; wDay := 6;
                 wHour := 9; wMinute := 30; wSecond := 15;
                 wMilliseconds := 250 |};
         Call (PutText picture0 "9:30:15.250" (16, 40)
                 FONT_HERSHEY_COMPLEX_SMALL (16 # 10) (0, 0, 255) 2)
              picture0;
         Call (Imshow "Streaming Video 0" picture0) tt;
         Call (WaitKey kDisplayDelayTimeMS) (-1) ]
       (Ret (record_received socket0 [x01; x02; x03],
             {| video_frame_ := frame0 |})).
Proof.
  apply (proj2 (proj2 C5_slot_is_overwritten_every_turn)
           "Streaming Video 0"%string socket0 BasicProtocolData_new
           (1, [100]) 3 [x01; x02; x03] x01 [x02; x03] picture0
           {| wYear := 2019; wMonth := 5; wDayOfWeek := 1; wDay := 6;
              wHour := 9; wMinute := 30; wSecond := 15;
              wMilliseconds := 250 |}
           picture0 (-1)).
  - reflexivity.
  - lia.
  - vm_compute. reflexivity.
  - reflexivity.
Defined.

(** C5 as stated fails: the slot holds a decoded frame, one poll is
    quiet, and the slot holds the empty frame afterwards (the window shows
    the fallback image). *)
Lemma C5_counterexample :
  ~ slot_persists "Streaming Video 0"
      (socket0, {| video_frame_ := frame0 |})
      (fallback_trace socket0 "Streaming Video 0" quiet0).
Proof.
  intros H.
  specialize (H (Ret (socket0, BasicProtocolData_new))
                (socket0, BasicProtocolData_new)
                (quiet_cycle "Streaming Video 0" socket0
                   {| video_frame_ := frame0 |} quiet0 eq_refl)
                eq_refl).
  discriminate H.
Qed.

(** ** One [exit] for all sessions *)

Lemma nth_set_thread i t pool :
  (i < List.length pool)%nat -> nth_error (set_thread i t pool) i = Some t.
Proof.
  intros H. unfold set_thread.
  rewrite nth_error_app2 by (rewrite length_firstn; lia).
  rewrite length_firstn.
  replace (i - Nat.min i (List.length pool))%nat with 0%nat by lia.
  reflexivity.
Qed.

Lemma set_thread_same i t pool :
  nth_error pool i = Some t -> set_thread i t pool = pool.
Proof.
  revert pool. induction i as [| i IH]; intros [| a pool] H; try discriminate.
  - cbn in H. injection H as ->. reflexivity.
  - cbn in H. unfold set_thread in *. cbn. f_equal. apply IH. exact H.
Qed.

Lemma set_thread_twice i a b pool :
  (i < List.length pool)%nat ->
  set_thread i a (set_thread i b pool) = set_thread i a pool.
Proof.
  revert pool. induction i as [| i IH]; intros [| c pool] H; cbn in H; try lia.
  - reflexivity.
  - unfold set_thread in *. cbn. f_equal. apply IH. lia.
Qed.

Lemma psteps_app p ls p' ls' p'' :
  psteps p ls p' -> psteps p' ls' p'' -> psteps p (ls ++ ls') p''.
Proof.
  induction 1 as [| p l q ls r Hstep _ IH]; intros H'.
  - exact H'.
  - cbn. eapply psteps_cons; [exact Hstep | auto].
Qed.

(** The calls of one thread, taken one after the other, are steps of the
    process. *)
Lemma psteps_thread pool i t0 t tr u :
  nth_error pool i = Some t0 ->
  runs t0 [] t ->
  runs t tr u ->
  Forall no_spawn tr ->
  exists u',
    psteps (Running pool) (List.map (L_call i) tr)
           (Running (set_thread i u' pool))
    /\ nth_error (set_thread i u' pool) i = Some u'
    /\ runs u' [] u.
Proof.
  intros Hnth Hsilent Hrun. revert pool t0 Hnth Hsilent.
  induction Hrun as [t u E | t t' tr u E _ IH | t X e k x tr u E _ IH];
    intros pool t0 Hnth Hsilent Hspawn.
  - exists t0. rewrite (set_thread_same _ _ _ Hnth).
    split; [apply psteps_nil |]. split; [exact Hnth |].
    replace (@nil io_event) with (@nil io_event ++ []) by reflexivity.
    eapply runs_app; [exact Hsilent | apply runs_done; exact E].
  - apply (IH pool t0 Hnth); [| exact Hspawn].
    replace (@nil io_event) with (@nil io_event ++ []) by reflexivity.
    eapply runs_app; [exact Hsilent |].
    eapply runs_tau; [exact E | apply runs_done; reflexivity].
  - inversion Hspawn as [| ev tr' Hev Htr]; subst.
    assert (Hlen : (i < List.length pool)%nat).
    { apply nth_error_Some. rewrite Hnth. discriminate. }
    destruct (IH (set_thread i (k x) pool) (k x)
                 (nth_set_thread _ _ _ Hlen)
                 (runs_done _ _ eq_refl) Htr)
      as [u' [Hsteps [Hnth' Hu']]].
    rewrite (set_thread_twice _ _ _ _ Hlen) in Hsteps, Hnth'.
    exists u'. split; [| split; assumption].
    cbn [List.map]. eapply psteps_cons; [| exact Hsteps].
    eapply pstep_call; eassumption.
Qed.

Lemma bind_failure_run (port : Z) (kWindowName_id : string)
      (handle mode status : Z) :
  handle <> INVALID_SOCKET ->
  mode <> SOCKET_ERROR ->
  status < 0 ->
  runs (MultiReceiver.receive port kWindowName_id)
       (bind_failure_calls port handle mode status)
       (exit (-1)).
Proof.
  intros Hhandle Hmode Hstatus.
  unfold MultiReceiver.receive, ReceiverSocket_new,
    MultiReceiver.BindSocketToListen, bind_failure_calls, listen_addr.
  run_step. run_norm. change (0 =? 0) with true.
  run_step. run_norm. cbn [socket_handle_ port_].
  destruct (Z.eqb_spec handle INVALID_SOCKET) as [E | _]; [contradiction |].
  run_step. run_norm.
  destruct (Z.eqb_spec mode SOCKET_ERROR) as [E | _]; [contradiction |].
  run_step. run_norm.
  destruct (Z.ltb_spec status 0) as [_ | Hge]; [| lia].
  run_step. run_step.
  apply runs_done. reflexivity.
Qed.

Lemma listening_run (port : Z) (kWindowName_id : string)
      (handle mode status : Z) :
  handle <> INVALID_SOCKET ->
  mode <> SOCKET_ERROR ->
  0 <= status ->
  runs (MultiReceiver.receive port kWindowName_id)
       (listening_calls port handle mode status)
       (MultiReceiver.receive_loop kWindowName_id
          ({| buffer_ := fresh_buffer kMaxPacketBufferSize;
              port_ := port;
              socket_handle_ := handle |},
           BasicProtocolData_new)).
Proof.
  intros Hhandle Hmode Hstatus.
  unfold MultiReceiver.receive, ReceiverSocket_new,
    MultiReceiver.BindSocketToListen, listening_calls, listen_addr.
  run_step. run_norm. change (0 =? 0) with true.
  run_step. run_norm. cbn [socket_handle_ port_].
  destruct (Z.eqb_spec handle INVALID_SOCKET) as [E | _]; [contradiction |].
  run_step. run_norm.
  destruct (Z.eqb_spec mode SOCKET_ERROR) as [E | _]; [contradiction |].
  run_step. run_norm.
  destruct (Z.ltb_spec status 0) as [Hlt | _]; [lia |].
  run_step.
  apply runs_done. reflexivity.
Qed.

(** Whatever the other threads are, a session whose [bind] fails takes the
    process down. *)
Lemma bind_failure_exits pool i port kWindowName_id handle mode status :
  nth_error pool i = Some (MultiReceiver.receive port kWindowName_id) ->
  handle <> INVALID_SOCKET ->
  mode <> SOCKET_ERROR ->
  status < 0 ->
  psteps (Running pool)
         (List.map (L_call i) (bind_failure_calls port handle mode status)
          ++ [L_exit i (-1)])
         (Exited (-1)).
Proof.
  intros Hnth Hhandle Hmode Hstatus.
  destruct (psteps_thread pool i _ _ _ _ Hnth (runs_done _ _ eq_refl)
              (bind_failure_run port kWindowName_id handle mode status
                 Hhandle Hmode Hstatus))
    as [u' [Hsteps [Hnth' Hu']]].
  { unfold bind_failure_calls. repeat constructor. }
  eapply psteps_app; [exact Hsteps |].
  eapply psteps_cons; [| apply psteps_nil].
  eapply pstep_exit; [exact Hnth' | exact Hu' | first_step].
Qed.

(** C2 as the code has it.  A session of the threaded receiver whose
    [bind] fails writes two lines to stderr and calls [exit(-1)]: the
    process is over, whatever its other threads were doing, and no thread
    takes another step. *)
Theorem C2_bind_failure_ends_the_process
        (pool : list (itree ioE unit)) (i : nat)
        (port : Z) (kWindowName_id : string) (handle mode status : Z) :
  nth_error pool i = Some (MultiReceiver.receive port kWindowName_id) ->
  handle <> INVALID_SOCKET ->
  mode <> SOCKET_ERROR ->
  status < 0 ->
  psteps (Running pool)
         (List.map (L_call i) (bind_failure_calls port handle mode status)
          ++ [L_exit i (-1)])
         (Exited (-1))
  /\ (forall l p', ~ pstep (Exited (-1)) l p').
Proof.
  intros Hnth Hhandle Hmode Hstatus.
  split; [eapply bind_failure_exits; eassumption |].
  intros l p' Hstep. inversion Hstep.
Qed.

Lemma C2_bind_failure_ends_the_process_witness :
  psteps (Running [ MultiReceiver.receive 5000 "Streaming Video 1";
                    MultiReceiver.receive 4000 "Streaming Video 0" ])
         (List.map (L_call 1) (bind_failure_calls 4000 100 0 (-1))
          ++ [L_exit 1 (-1)])
         (Exited (-1))
  /\ (forall l p', ~ pstep (Exited (-1)) l p').
Proof.
  apply (C2_bind_failure_ends_the_process
           [ MultiReceiver.receive 5000 "Streaming Video 1";
             MultiReceiver.receive 4000 "Streaming Video 0" ]
           1 4000 "Streaming Video 0" 100 0 (-1)).
  - reflexivity.
  - unfold INVALID_SOCKET. lia.
  - unfold SOCKET_ERROR. lia.
  - lia.
Defined.

Lemma bind_failure_trace_runs :
  psteps (Running [main_thread MultiReceiver.main]) bind_failure_trace
         (Exited (-1)).
Proof.
  unfold bind_failure_trace.
  eapply psteps_app.
  { (* [main] starts the three sessions *)
    eapply psteps_cons.
    { eapply pstep_spawn;
        [reflexivity | apply runs_done; reflexivity | cbn; reflexivity]. }
    cbn [set_thread firstn skipn app List.length].
    eapply psteps_cons.
    { eapply pstep_spawn;
        [reflexivity | apply runs_done; reflexivity | cbn; reflexivity]. }
    cbn [set_thread firstn skipn app List.length].
    eapply psteps_cons.
    { eapply pstep_spawn;
        [reflexivity | apply runs_done; reflexivity | cbn; reflexivity]. }
    cbn [set_thread firstn skipn app List.length thread_code].
    apply psteps_nil. }
  (* the session of port 5000 reaches its loop *)
  match goal with
  | |- psteps (Running ?pool) _ _ =>
      destruct (psteps_thread pool 2 _ _ _ _ eq_refl (runs_done _ _ eq_refl)
                  (listening_run 5000 "Streaming Video 1" 101 0 0
                     ltac:(unfold INVALID_SOCKET; lia)
                     ltac:(unfold SOCKET_ERROR; lia)
                     ltac:(lia)))
        as [u' [Hsteps [_ _]]];
      [unfold listening_calls; repeat constructor |]
  end.
  eapply psteps_app; [exact Hsteps |].
  cbn [set_thread firstn skipn app].
  (* the bind of port 4000 fails *)
  eapply bind_failure_exits.
  - reflexivity.
  - unfold INVALID_SOCKET. lia.
  - unfold SOCKET_ERROR. lia.
  - lia.
Qed.

(** C2 as stated fails: the session of port 5000 is listening, the bind of
    port 4000 fails, and the process has exited with all its sessions. *)
Lemma C2_counterexample :
  ~ process_survives (Running [main_thread MultiReceiver.main])
      bind_failure_trace.
Proof.
  intros H.
  destruct (H (Exited (-1)) bind_failure_trace_runs) as [pool E].
  discriminate E.
Qed.

(** ** The theorems at work on concrete runs *)

Lemma C7_datagram_is_the_encoded_frame_witness :
  exists encoded jpeg sent,
    [ Call (Imencode ".jpg" picture0 [IMWRITE_JPEG_QUALITY; 60]) (true, jpeg0);
      Call (Sendto 200 jpeg0 4 0 (Sender.receiver_addr_ sender0) 16) 4 ]
    = [ Call (Imencode kJPEGExtension picture0
                [IMWRITE_JPEG_QUALITY; Sender.kJPEGQuality])
             (encoded, jpeg);
        Call (Sendto (Sender.socket_handle_ sender0) jpeg
                (Z.of_nat (List.length jpeg)) 0
                (Sender.receiver_addr_ sender0) sizeof_sockaddr_in)
             sent ]
    /\ sent_datagram jpeg (Z.of_nat (List.length jpeg)) = jpeg.
Proof.
  apply (wp_sound _ _ _
           (C7_datagram_is_the_encoded_frame sender0 {| video_frame_ := frame0 |})
           _ (Ret tt) tt).
  - unfold Sender.send_frame, PackageData, GetJPEG, Sender.SendPacket.
    run_step. run_step. run_done.
  - reflexivity.
  - repeat constructor.
Defined.

Lemma C8_packet_at_most_65535_bytes_witness :
  runs (Receiver.GetPacket socket0)
       [Call (Recvfrom 100 kMaxPacketBufferSize 0) (3, [x01; x02; x03])]
       (Ret (record_received socket0 [x01; x02; x03], [x01; x02; x03]))
  /\ Z.of_nat (List.length [x01; x02; x03]) <= 65535.
Proof.
  assert (Hrun : runs (Receiver.GetPacket socket0)
                      [Call (Recvfrom 100 kMaxPacketBufferSize 0)
                            (3, [x01; x02; x03])]
                      (Ret (record_received socket0 [x01; x02; x03],
                            [x01; x02; x03]))).
  { unfold Receiver.GetPacket, GetPacket_blocking.
    run_step. run_done. }
  split; [exact Hrun |].
  apply (wp_sound _ _ _
           (proj1 (proj2 C8_packet_at_most_65535_bytes) socket0)
           _ _ (record_received socket0 [x01; x02; x03], [x01; x02; x03])
           Hrun eq_refl).
  repeat constructor. unfold kMaxPacketBufferSize. simpl. lia.
Defined.

Lemma C9_closed_camera_gives_empty_frame_witness :
  let tr :=
    [ Call (IsOpened 0) false;
      Call (Cerr "Could not get frame. Camera not available.") tt;
      Call (Imencode ".jpg" Mat_default [IMWRITE_JPEG_QUALITY; 60]) (false, []);
      Call (Sendto 200 [] 0 0 (Sender.receiver_addr_ sender0) 16) (-1) ] in
  (camera0, BasicProtocolData_new) = (camera0, BasicProtocolData_new)
  /\ runs (Sender.send_loop sender0 (camera0, {| video_frame_ := frame0 |})) tr
          (Sender.send_loop sender0 (camera0, BasicProtocolData_new))
  /\ ~ session_ends_after
         (Sender.send_loop sender0 (camera0, {| video_frame_ := frame0 |})) tr.
Proof.
  apply (wp_sound _ _ _
           (proj2 (proj2 C9_closed_camera_gives_empty_frame)
              sender0 camera0 {| video_frame_ := frame0 |})
           _ (Ret (camera0, BasicProtocolData_new))
           (camera0, BasicProtocolData_new)).
  - unfold Sender.send_cycle, Sender.GetFrameFromCamera, Sender.send_frame,
      PackageData, GetJPEG, Sender.SendPacket.
    do 4 run_step. run_done.
  - reflexivity.
  - repeat constructor.
Defined.

Lemma C10_nonpositive_recvfrom_gives_no_data_witness :
  let session :=
    MultiReceiver.receive_loop "Streaming Video 0"
      (socket0, {| video_frame_ := frame0 |}) in
  let tr := failed_receive_trace socket0 (1, [100]) (SOCKET_ERROR, []) in
  snd (record_received socket0 [], BasicProtocolData_new) = BasicProtocolData_new
  /\ runs session tr
          (MultiReceiver.receive_loop "Streaming Video 0"
             (record_received socket0 [], BasicProtocolData_new))
  /\ ~ session_ends_after session tr.
Proof.
  apply (wp_sound _ _ _
           (proj2 (proj2 (proj2 (proj2 C10_nonpositive_recvfrom_gives_no_data)))
              "Streaming Video 0"%string (socket0, {| video_frame_ := frame0 |}))
           _ (Ret (record_received socket0 [], BasicProtocolData_new))
           (record_received socket0 [], BasicProtocolData_new)).
  - apply (failed_receive_cycle "Streaming Video 0" socket0
             {| video_frame_ := frame0 |} (1, [100]) (SOCKET_ERROR, []));
      [reflexivity | unfold SOCKET_ERROR; simpl; lia].
  - reflexivity.
  - repeat constructor. unfold SOCKET_ERROR. simpl. lia.
Defined.

(** ** Every turn of the threaded receiver *)

Lemma threaded_turns (w : string) (s : ReceiverSocket)
      (pd : BasicProtocolData) :
  wp any_answer (threaded_turn w s) (MultiReceiver.receive_cycle w (s, pd)).
Proof.
  unfold MultiReceiver.receive_cycle, MultiReceiver.GetPacket,
    MultiReceiver.UnpackData, MultiReceiver.Display, VideoFrame_of_bytes.
  wp_step as [SelectRcv rfd] _.
  wp_norm. destruct (FD_ISSET (socket_handle_ s) rfd) eqn:Hset.
  - wp_step as [num_bytes received] _.
    wp_norm.
    change (if num_bytes >? 0
            then [] ++ firstn (Z.to_nat num_bytes)
                         (buffer_ (record_received s received))
            else [])
      with (packet_of s (num_bytes, received)).
    destruct (packet_of s (num_bytes, received)) as [| b packet] eqn:Hpacket.
    + wp_norm. change (Mat_empty (frame_image_ VideoFrame_new)) with true.
      wp_done.
      apply (turn_no_packet w s (SelectRcv, rfd) (num_bytes, received));
        assumption.
    + wp_step as image _.
      wp_norm. destruct (Mat_empty image) eqn:Hempty.
      * wp_done. rewrite <- Hpacket.
        apply (turn_not_decoded w s (SelectRcv, rfd) (num_bytes, received) image);
          [assumption | rewrite Hpacket; discriminate | assumption].
      * wp_step as [] _. wp_step as sys _. wp_step as drawn _.
        wp_step as [] _. wp_step as key _.
        wp_done. rewrite <- Hpacket.
        apply (turn_shown w s (SelectRcv, rfd) (num_bytes, received)
                 image sys drawn key);
          [assumption | rewrite Hpacket; discriminate | assumption].
  - wp_step as picture _. wp_step as [] _. wp_step as [] _. wp_step as key _.
    wp_norm. change (Mat_empty (frame_image_ VideoFrame_new)) with true.
    wp_done.
    apply (turn_quiet w s {| q_select := SelectRcv; q_readfds := rfd;
                             q_picture := picture; q_key := key |}).
    exact Hset.
Qed.

(** X1.  Whatever arrives, the threaded receiver hands [imdecode] a buffer
    with at least one octet: the guard in its [UnpackData] keeps the empty
    packet away from the decoder. *)
Theorem threaded_receiver_never_decodes_empty (w : string)
        (st : ReceiverSocket * BasicProtocolData) :
  wp any_answer (fun tr _ => Forall decodes_something tr)
     (MultiReceiver.receive_cycle w st).
Proof.
  destruct st as [s pd].
  eapply wp_mono; [apply threaded_turns |].
  intros tr st' Hturn.
  destruct Hturn as [a _ | sel rcv _ _ | sel rcv image _ Hpacket _
                     | sel rcv image sys drawn key _ Hpacket _];
    unfold fallback_trace, failed_receive_trace, display_calls;
    cbn [app]; repeat constructor; exact Hpacket.
Qed.

(** X2.  A session of the threaded receiver opens and paints only the
    window it was started with, in the fallback path as in the display
    path, and it paints at most once per turn. *)
Theorem threaded_receiver_keeps_to_its_window (w : string)
        (st : ReceiverSocket * BasicProtocolData) :
  wp any_answer
     (fun tr _ =>
        Forall (on_window w) tr
        /\ (List.length (filter is_imshow tr) <= 1)%nat)
     (MultiReceiver.receive_cycle w st).
Proof.
  destruct st as [s pd].
  eapply wp_mono; [apply threaded_turns |].
  intros tr st' Hturn.
  destruct Hturn as [a _ | sel rcv _ _ | sel rcv image _ _ _
                     | sel rcv image sys drawn key _ _ _];
    unfold fallback_trace, failed_receive_trace, display_calls;
    cbn [app filter is_imshow List.length];
    (split; [repeat constructor | lia]).
Qed.

(** X3.  Every turn of the threaded receiver starts with its one [select]
    on its own socket with the 1 s wait, and calls [recvfrom] exactly when
    [select] left the socket in the read set, once, with the full buffer
    length: a turn takes at most one datagram. *)
Theorem threaded_receiver_polls_then_receives_once (w : string)
        (s : ReceiverSocket) (pd : BasicProtocolData) :
  wp any_answer
     (fun tr _ =>
        exists sel rest,
          tr = Call (Select (socket_handle_ s + 1)
                       (FD_SET (socket_handle_ s) FD_ZERO)
                       MultiReceiver.poll_timeout) sel :: rest
          /\ filter is_select rest = []
          /\ if FD_ISSET (socket_handle_ s) (snd sel)
             then exists rcv rest',
                 rest = Call (Recvfrom (socket_handle_ s)
                                kMaxPacketBufferSize 0) rcv :: rest'
                 /\ filter is_recvfrom rest' = []
             else filter is_recvfrom rest = [])
     (MultiReceiver.receive_cycle w (s, pd)).
Proof.
  eapply wp_mono; [apply threaded_turns |].
  intros tr st' Hturn.
  destruct Hturn as [a Hquiet | sel rcv Hset _ | sel rcv image Hset _ _
                     | sel rcv image sys drawn key Hset _ _];
    unfold fallback_trace, failed_receive_trace, display_calls;
    cbn [app]; eexists; eexists;
    (split; [reflexivity |]); (split; [reflexivity |]);
    cbn [snd]; rewrite ?Hquiet, ?Hset;
    try reflexivity;
    eexists; eexists; split; reflexivity.
Qed.

(** ** What [GetPacket] returns is what arrived *)

Lemma packet_is_payload (received buffer : bytes) :
  (List.length received <= List.length buffer)%nat ->
  firstn (List.length received) (received_into received buffer) = received.
Proof.
  intros H. unfold received_into.
  rewrite firstn_firstn, Nat.min_l by exact H.
  rewrite firstn_app, Nat.sub_diag, firstn_all. cbn. apply app_nil_r.
Qed.

Lemma packet_of_payload (s : ReceiverSocket) (received : bytes) :
  received <> [] ->
  (List.length received <= List.length (buffer_ s))%nat ->
  packet_of s (Z.of_nat (List.length received), received) = received.
Proof.
  intros Hsome Hfits. unfold packet_of. cbn [fst snd record_received buffer_].
  destruct (Z.gtb_spec (Z.of_nat (List.length received)) 0) as [_ | Hle].
  - rewrite Nat2Z.id. cbn [app]. apply packet_is_payload. exact Hfits.
  - destruct received; [contradiction | cbn in Hle; lia].
Qed.

(** X4.  When [recvfrom] reports the length of the datagram it wrote and
    the datagram fits the buffer, [GetPacket] returns exactly that
    datagram, in all three programs; nothing an earlier, longer datagram
    left in the buffer shows through. *)
Theorem GetPacket_returns_the_datagram
        (s : ReceiverSocket) (kWindowName : string) (sel : Z * fd_set)
        (earlier received : bytes) :
  received <> [] ->
  (List.length received <= List.length (buffer_ s))%nat ->
  FD_ISSET (socket_handle_ s) (snd sel) = true ->
  let rcv := (Z.of_nat (List.length received), received) in
  let h := socket_handle_ s in
  runs (Receiver.GetPacket s)
       [Call (Recvfrom h kMaxPacketBufferSize 0) rcv]
       (Ret (record_received s received, received))
  /\ runs (Sender.GetPacket s)
          [Call (Recvfrom h kMaxPacketBufferSize 0) rcv]
          (Ret (record_received s received, received))
  /\ runs (MultiReceiver.GetPacket s kWindowName)
          [ Call (Select (h + 1) (FD_SET h FD_ZERO) MultiReceiver.poll_timeout)
                 sel;
            Call (Recvfrom h kMaxPacketBufferSize 0) rcv ]
          (Ret (record_received s received, received))
  /\ runs (Receiver.GetPacket (record_received s earlier))
          [Call (Recvfrom h kMaxPacketBufferSize 0) rcv]
          (Ret (record_received (record_received s earlier) received, received)).
Proof.
  intros Hsome Hfits Hset rcv h. subst rcv h.
  pose proof (packet_of_payload s received Hsome Hfits) as Hpacket.
  assert (Hpacket' :
            packet_of (record_received s earlier)
                      (Z.of_nat (List.length received), received) = received).
  { apply packet_of_payload; [exact Hsome |].
    cbn [record_received buffer_]. rewrite received_into_size. exact Hfits. }
  unfold packet_of in Hpacket, Hpacket'. cbn [fst snd] in Hpacket, Hpacket'.
  destruct sel as [SelectRcv rfd]. cbn [snd] in Hset.
  unfold Receiver.GetPacket, Sender.GetPacket, GetPacket_blocking,
    MultiReceiver.GetPacket.
  split; [| split; [| split]].
  - run_step. run_norm. apply runs_done.
    cbn [observe _observe]. do 2 f_equal. exact Hpacket.
  - run_step. run_norm. apply runs_done.
    cbn [observe _observe]. do 2 f_equal. exact Hpacket.
  - run_step. run_norm. rewrite Hset.
    run_step. run_norm. apply runs_done.
    cbn [observe _observe]. do 2 f_equal. exact Hpacket.
  - run_step. run_norm. apply runs_done.
    cbn [observe _observe]. do 2 f_equal. exact Hpacket'.
Qed.

Lemma GetPacket_returns_the_datagram_witness :
  let rcv := (3, [x01; x02; x03]) in
  runs (Receiver.GetPacket socket0)
       [Call (Recvfrom 100 kMaxPacketBufferSize 0) rcv]
       (Ret (record_received socket0 [x01; x02; x03], [x01; x02; x03]))
  /\ runs (Sender.GetPacket socket0)
          [Call (Recvfrom 100 kMaxPacketBufferSize 0) rcv]
          (Ret (record_received socket0 [x01; x02; x03], [x01; x02; x03]))
  /\ runs (MultiReceiver.GetPacket socket0 "Streaming Video 0")
          [ Call (Select 101 [100] MultiReceiver.poll_timeout) (1, [100]);
            Call (Recvfrom 100 kMaxPacketBufferSize 0) rcv ]
          (Ret (record_received socket0 [x01; x02; x03], [x01; x02; x03]))
  /\ runs (Receiver.GetPacket (record_received socket0 jpeg0))
          [Call (Recvfrom 100 kMaxPacketBufferSize 0) rcv]
          (Ret (record_received (record_received socket0 jpeg0)
                  [x01; x02; x03],
                [x01; x02; x03])).
Proof.
  apply (GetPacket_returns_the_datagram socket0 "Streaming Video 0"
           (1, [100]) jpeg0 [x01; x02; x03]).
  - discriminate.
  - apply Nat.leb_le. vm_compute. reflexivity.
  - reflexivity.
Defined.

(** ** Every turn of the single-window receiver *)

Lemma single_turns (s : ReceiverSocket) (pd : BasicProtocolData) :
  wp any_answer (single_turn s) (Receiver.receive_cycle (s, pd)).
Proof.
  unfold Receiver.receive_cycle, Receiver.GetPacket, GetPacket_blocking,
    Receiver.UnpackData, VideoFrame_of_bytes, Receiver.Display.
  wp_step as [num_bytes received] _.
  wp_norm.
  change (if num_bytes >? 0
          then [] ++ firstn (Z.to_nat num_bytes)
                       (buffer_ (record_received s received))
          else [])
    with (packet_of s (num_bytes, received)).
  wp_step as image _.
  wp_norm. destruct (Mat_empty image) eqn:Hempty.
  - wp_done.
    apply (single_not_shown s (num_bytes, received) image). exact Hempty.
  - wp_step as [] _. wp_step as sys _. wp_step as drawn _.
    wp_step as [] _. wp_step as key _.
    wp_done.
    apply (single_shown s (num_bytes, received) image sys drawn key).
    exact Hempty.
Qed.

Lemma packet_of_nothing (s : ReceiverSocket) (rcv : Z * bytes) :
  fst rcv <= 0 -> packet_of s rcv = [].
Proof.
  intros H. unfold packet_of.
  destruct (Z.gtb_spec (fst rcv) 0) as [Hgt | _]; [lia | reflexivity].
Qed.

(** X5.  The single-window receiver has no guard before the decoder:
    every turn calls [recvfrom] once and then [imdecode] once, and when
    [recvfrom] failed or delivered nothing the buffer handed to [imdecode]
    is the empty one.  The window is painted exactly when the decoder
    answered with an image. *)
Theorem single_receiver_decodes_every_packet
        (s : ReceiverSocket) (pd : BasicProtocolData) :
  wp any_answer
     (fun tr _ =>
        exists rcv image rest,
          tr = Call (Recvfrom (socket_handle_ s) kMaxPacketBufferSize 0) rcv
               :: Call (Imdecode (packet_of s rcv) IMREAD_COLOR) image
               :: rest
          /\ (fst rcv <= 0 -> packet_of s rcv = [])
          /\ filter is_recvfrom rest = []
          /\ List.length (filter is_imshow rest)
             = if Mat_empty image then 0%nat else 1%nat)
     (Receiver.receive_cycle (s, pd)).
Proof.
  eapply wp_mono; [apply single_turns |].
  intros tr st' Hturn.
  destruct Hturn as [rcv image Hempty | rcv image sys drawn key Hempty];
    exists rcv, image; eexists;
    (split; [reflexivity |]);
    (split; [apply packet_of_nothing |]);
    rewrite Hempty; split; reflexivity.
Qed.

(** ** From the sender's encoder to the receiver's decoder *)

(** X6.  A frame that encodes to a non-empty buffer no longer than the
    receive buffer travels unchanged: the datagram the sender hands to
    [sendto] is the encoder's output, and a receiver that is delivered this
    datagram hands exactly the encoder's output to [imdecode] as its next
    call, in the threaded receiver and in the single-window one. *)
Theorem encoded_frame_reaches_the_decoder
        (sender : Sender.SenderSocket) (sent_pd : BasicProtocolData)
        (w : string) (s : ReceiverSocket) (pd : BasicProtocolData)
        (sel : Z * fd_set) (encoded : bool) (jpeg : bytes) (sent : Z) :
  jpeg <> [] ->
  (List.length jpeg <= List.length (buffer_ s))%nat ->
  FD_ISSET (socket_handle_ s) (snd sel) = true ->
  let datagram := sent_datagram jpeg (Z.of_nat (List.length jpeg)) in
  let rcv := (Z.of_nat (List.length datagram), datagram) in
  runs (Sender.send_frame sender sent_pd)
       (send_calls sender (frame_image_ (video_frame_ sent_pd))
                   encoded jpeg sent)
       (Ret tt)
  /\ (exists u k,
         runs (MultiReceiver.receive_cycle w (s, pd))
              (failed_receive_trace s sel rcv) u
         /\ observe u = VisF (Imdecode jpeg IMREAD_COLOR) k)
  /\ (exists u k,
         runs (Receiver.receive_cycle (s, pd))
              [Call (Recvfrom (socket_handle_ s) kMaxPacketBufferSize 0) rcv] u
         /\ observe u = VisF (Imdecode jpeg IMREAD_COLOR) k).
Proof.
  intros Hsome Hfits Hset datagram rcv.
  assert (Hdatagram : datagram = jpeg).
  { unfold datagram, sent_datagram. rewrite Nat2Z.id. apply firstn_all. }
  subst rcv. rewrite Hdatagram. clear datagram Hdatagram.
  pose proof (packet_of_payload s jpeg Hsome Hfits) as Hpacket.
  destruct sel as [SelectRcv rfd]. cbn [snd] in Hset.
  split; [| split].
  - unfold Sender.send_frame, PackageData, GetJPEG, Sender.SendPacket,
      send_calls.
    run_step. run_step. run_done.
  - unfold MultiReceiver.receive_cycle, MultiReceiver.GetPacket,
      MultiReceiver.UnpackData, VideoFrame_of_bytes, failed_receive_trace.
    eexists. eexists. split.
    + run_step. run_norm. rewrite Hset.
      run_step. run_norm.
      change (if Z.of_nat (List.length jpeg) >? 0
              then [] ++ firstn (Z.to_nat (Z.of_nat (List.length jpeg)))
                           (buffer_ (record_received s jpeg))
              else [])
        with (packet_of s (Z.of_nat (List.length jpeg), jpeg)).
      rewrite Hpacket.
      destruct jpeg as [| b rest]; [contradiction |].
      run_norm. apply runs_done. reflexivity.
    + destruct jpeg as [| b rest]; [contradiction |]. first_step.
  - unfold Receiver.receive_cycle, Receiver.GetPacket, GetPacket_blocking,
      Receiver.UnpackData, VideoFrame_of_bytes.
    eexists. eexists. split.
    + run_step. run_norm.
      change (if Z.of_nat (List.length jpeg) >? 0
              then [] ++ firstn (Z.to_nat (Z.of_nat (List.length jpeg)))
                           (buffer_ (record_received s jpeg))
              else [])
        with (packet_of s (Z.of_nat (List.length jpeg), jpeg)).
      rewrite Hpacket.
      apply runs_done. reflexivity.
    + first_step.
Qed.

Lemma encoded_frame_reaches_the_decoder_witness :
  runs (Sender.send_frame sender0 {| video_frame_ := frame0 |})
       (send_calls sender0 picture0 true jpeg0 4)
       (Ret tt)
  /\ (exists u k,
         runs (MultiReceiver.receive_cycle "Streaming Video 0"
                 (socket0, BasicProtocolData_new))
              (failed_receive_trace socket0 (1, [100]) (4, jpeg0)) u
         /\ observe u = VisF (Imdecode jpeg0 IMREAD_COLOR) k)
  /\ (exists u k,
         runs (Receiver.receive_cycle (socket0, BasicProtocolData_new))
              [Call (Recvfrom 100 kMaxPacketBufferSize 0) (4, jpeg0)] u
         /\ observe u = VisF (Imdecode jpeg0 IMREAD_COLOR) k).
Proof.
  apply (encoded_frame_reaches_the_decoder sender0 {| video_frame_ := frame0 |}
           "Streaming Video 0" socket0 BasicProtocolData_new (1, [100])
           true jpeg0 4).
  - discriminate.
  - apply Nat.leb_le. vm_compute. reflexivity.
  - reflexivity.
Defined.

(** ** Every turn of the sender *)

Lemma sender_turns (socket : Sender.SenderSocket) (vc : VideoCapture)
      (pd : BasicProtocolData) :
  show_video_ vc = false ->
  wp any_answer (sender_turn socket vc) (Sender.send_cycle socket (vc, pd)).
Proof.
  intros Hquiet.
  unfold Sender.send_cycle, Sender.GetFrameFromCamera, Sender.send_frame,
    PackageData, GetJPEG, Sender.SendPacket.
  wp_step as opened _. destruct opened.
  - wp_step as raw _.
    wp_norm. destruct (Qltb (scale_ vc) 1) eqn:Hscale.
    + wp_step as resized _. wp_step as sys _. wp_step as ft _.
      wp_step as shifted _. wp_step as stamped _.
      wp_norm. rewrite Hquiet.
      wp_step as [encoded jpeg] _. wp_step as sent _.
      wp_done.
      pose proof (send_captured socket vc raw resized sys ft shifted stamped
                    encoded jpeg sent) as Hturn.
      unfold capture_calls in Hturn. rewrite Hscale in Hturn. exact Hturn.
    + wp_step as sys _. wp_step as ft _.
      wp_step as shifted _. wp_step as stamped _.
      wp_norm. rewrite Hquiet.
      wp_step as [encoded jpeg] _. wp_step as sent _.
      wp_done.
      pose proof (send_captured socket vc raw raw sys ft shifted stamped
                    encoded jpeg sent) as Hturn.
      unfold capture_calls in Hturn. rewrite Hscale in Hturn. exact Hturn.
  - wp_step as [] _.
    wp_step as [encoded jpeg] _. wp_step as sent _.
    wp_done.
    exact (send_nothing_captured socket vc encoded jpeg sent).
Qed.

(** X7.  A sender session without preview sends exactly one datagram per
    turn, to the address of its socket, and never opens, paints or
    services a window.  Whatever [sendto] returns is ignored: the turn
    returns and the loop is back at its head, so a failed send does not
    end the session. *)
Theorem sender_sends_once_per_turn_and_ignores_the_result
        (socket : Sender.SenderSocket) (vc : VideoCapture)
        (pd : BasicProtocolData) :
  show_video_ vc = false ->
  wp any_answer
     (fun tr st' =>
        (exists before jpeg sent,
            tr = before
                 ++ [Call (Sendto (Sender.socket_handle_ socket) jpeg
                             (Z.of_nat (List.length jpeg)) 0
                             (Sender.receiver_addr_ socket) sizeof_sockaddr_in)
                          sent]
            /\ filter is_sendto before = [])
        /\ filter is_window_call tr = []
        /\ runs (Sender.send_loop socket (vc, pd)) tr
                (Sender.send_loop socket st')
        /\ ~ session_ends_after (Sender.send_loop socket (vc, pd)) tr)
     (Sender.send_cycle socket (vc, pd)).
Proof.
  intros Hquiet.
  eapply wp_mono.
  - apply (wp_loop (R := unit) any_answer (sender_turn socket vc)
                   (Sender.send_cycle socket) (vc, pd)).
    apply sender_turns. exact Hquiet.
  - cbn beta. intros tr st' [Hturn Hrun].
    split; [| split; [| split]].
    + destruct Hturn as [encoded jpeg sent
                        | raw resized sys ft shifted stamped encoded jpeg sent].
      * eexists [_; _; _], jpeg, sent. split; reflexivity.
      * unfold capture_calls, send_calls.
        destruct (Qltb (scale_ vc) 1).
        -- eexists [_; _; _; _; _; _; _; _], jpeg, sent. split; reflexivity.
        -- eexists [_; _; _; _; _; _; _], jpeg, sent. split; reflexivity.
    + destruct Hturn as [encoded jpeg sent
                        | raw resized sys ft shifted stamped encoded jpeg sent];
        unfold capture_calls, send_calls;
        [| destruct (Qltb (scale_ vc) 1)]; reflexivity.
    + exact Hrun.
    + destruct st' as [vc' pd'].
      eapply alive_after; [exact Hrun | cbn; reflexivity | reflexivity].
Qed.

Lemma sender_sends_once_per_turn_and_ignores_the_result_witness :
  let tr :=
    [ Call (IsOpened 0) false;
      Call (Cerr "Could not get frame. Camera not available.") tt;
      Call (Imencode ".jpg" Mat_default [IMWRITE_JPEG_QUALITY; 60]) (false, []);
      Call (Sendto 200 [] 0 0 (Sender.receiver_addr_ sender0) 16)
           SOCKET_ERROR ] in
  (exists before jpeg sent,
      tr = before
           ++ [Call (Sendto (Sender.socket_handle_ sender0) jpeg
                       (Z.of_nat (List.length jpeg)) 0
                       (Sender.receiver_addr_ sender0) sizeof_sockaddr_in)
                    sent]
      /\ filter is_sendto before = [])
  /\ filter is_window_call tr = []
  /\ runs (Sender.send_loop sender0 (camera0, BasicProtocolData_new)) tr
          (Sender.send_loop sender0 (camera0, BasicProtocolData_new))
  /\ ~ session_ends_after
         (Sender.send_loop sender0 (camera0, BasicProtocolData_new)) tr.
Proof.
  apply (wp_sound _ _ _
           (sender_sends_once_per_turn_and_ignores_the_result
              sender0 camera0 BasicProtocolData_new eq_refl)
           _ (Ret (camera0, BasicProtocolData_new))
           (camera0, BasicProtocolData_new)).
  - unfold Sender.send_cycle, Sender.GetFrameFromCamera, Sender.send_frame,
      PackageData, GetJPEG, Sender.SendPacket.
    do 4 run_step. run_done.
  - reflexivity.
  - repeat constructor.
Defined.

Lemma time_shift_in_range (ft : Z) :
  - 2 ^ 63 - time_shift <= ft < 2 ^ 63 ->
  Sender.wrap_int64 (ft + time_shift) = ft - 19900000.
Proof.
  intros H. unfold Sender.wrap_int64, time_shift in *.
  rewrite Z.mod_small by lia. lia.
Qed.

(** X8.  With the camera open and no preview, a turn of the sender is the
    pipeline capture, resize (exactly when the scale is below 1, by that
    scale in both directions), stamp, encode at quality 60, send: the
    encoder gets the stamped image, the slot holds it, and the text stamped
    is the local time moved back by 1.99 s (19 900 000 units of 100 ns),
    as long as that does not leave the [__int64] range. *)
Theorem sender_pipeline
        (socket : Sender.SenderSocket) (vc : VideoCapture)
        (pd : BasicProtocolData) (raw resized : Mat) (sys : SYSTEMTIME)
        (ft : Z) (shifted : SYSTEMTIME) (stamped : Mat)
        (encoded : bool) (jpeg : bytes) (sent : Z) :
  show_video_ vc = false ->
  - 2 ^ 63 - time_shift <= ft < 2 ^ 63 ->
  runs (Sender.send_cycle socket (vc, pd))
       (capture_calls vc raw resized sys ft shifted stamped
        ++ send_calls socket stamped encoded jpeg sent)
       (Ret (vc, {| video_frame_ := {| frame_image_ := stamped |} |}))
  /\ In (Call (FileTimeToSystemTime (ft - 19900000)) shifted)
        (capture_calls vc raw resized sys ft shifted stamped).
Proof.
  intros Hquiet Hrange. split.
  - unfold Sender.send_cycle, Sender.GetFrameFromCamera, Sender.send_frame,
      PackageData, GetJPEG, Sender.SendPacket, capture_calls, send_calls,
      time_shift.
    run_step. run_step.
    run_norm. destruct (Qltb (scale_ vc) 1).
    + cbn [app]. do 5 run_step. run_norm. rewrite Hquiet.
      do 2 run_step. run_done.
    + cbn [app]. do 4 run_step. run_norm. rewrite Hquiet.
      do 2 run_step. run_done.
  - unfold capture_calls. rewrite (time_shift_in_range ft Hrange).
    apply in_or_app. right. apply in_or_app. right.
    right. right. left. reflexivity.
Qed.

Lemma sender_pipeline_witness :
  let sys := {| wYear := 2019; wMonth := 5; wDayOfWeek := 1; wDay := 6;
                wHour := 9; wMinute := 30; wSecond := 15;
                wMilliseconds := 250 |} in
  let shifted := {| wYear := 2019; wMonth := 5; wDayOfWeek := 1; wDay := 6;
                    wHour := 9; wMinute := 30; wSecond := 13;
                    wMilliseconds := 260 |} in
  runs (Sender.send_cycle sender0 (camera0, BasicProtocolData_new))
       (capture_calls camera0 picture0 picture0 sys 132015942152500000
                      shifted picture0
        ++ send_calls sender0 picture0 true jpeg0 4)
       (Ret (camera0, {| video_frame_ := frame0 |}))
  /\ In (Call (FileTimeToSystemTime (132015942152500000 - 19900000)) shifted)
        (capture_calls camera0 picture0 picture0 sys 132015942152500000
                       shifted picture0).
Proof.
  intros sys shifted.
  apply (sender_pipeline sender0 camera0 BasicProtocolData_new
           picture0 picture0 sys 132015942152500000 shifted picture0
           true jpeg0 4).
  - reflexivity.
  - unfold time_shift. lia.
Defined.

(** ** Binding *)

(** X9.  [BindSocketToListen] returns true exactly when it wrote nothing
    to stderr; a handle it takes for invalid is never handed to [bind]
    (nor, in the threaded receiver, to [ioctlsocket]); and when it returns
    true, [bind] was called once, on the socket's own handle, for
    INADDR_ANY and the socket's port in network byte order, and returned
    no error.  The three files differ in the handles they take for invalid
    (the sender file every negative one) and in the threaded receiver's
    switch to non-blocking mode before the bind; for the threaded receiver
    this is what holds when [ioctlsocket] does not fail, the one case in
    which the function does not return. *)
Theorem BindSocketToListen_contract (s : ReceiverSocket) :
  let h := socket_handle_ s in
  let bind_call := Bind h (listen_addr s) sizeof_sockaddr_in in
  let unbound := "Binding failed. Socket was not initialized."%string in
  wp any_answer
     (fun tr bound =>
        (bound = true <-> stderr_lines tr = [])
        /\ (h = INVALID_SOCKET -> tr = [Call (Cerr unbound) tt])
        /\ (bound = true ->
            exists status, 0 <= status /\ tr = [Call bind_call status]))
     (Receiver.BindSocketToListen s)
  /\ wp any_answer
        (fun tr bound =>
           (bound = true <-> stderr_lines tr = [])
           /\ (h < 0 -> tr = [Call (Cerr unbound) tt])
           /\ (bound = true ->
               exists status, 0 <= status /\ tr = [Call bind_call status]))
        (Sender.BindSocketToListen s)
  /\ wp ioctl_succeeds
        (fun tr bound =>
           (bound = true <-> stderr_lines tr = [])
           /\ (h = INVALID_SOCKET -> tr = [Call (Cerr unbound) tt])
           /\ (bound = true ->
               exists mode status,
                 0 <= status
                 /\ tr = [ Call (Ioctlsocket h FIONBIO 1) mode;
                           Call bind_call status ]))
        (MultiReceiver.BindSocketToListen s).
Proof.
  intros h bind_call unbound. subst h bind_call unbound.
  split; [| split].
  - unfold Receiver.BindSocketToListen.
    destruct (Z.eqb_spec (socket_handle_ s) INVALID_SOCKET) as [Hbad | Hgood].
    + wp_step as [] _. wp_done.
      split; [split; discriminate |]. split; [reflexivity | discriminate].
    + wp_step as status _.
      wp_norm. destruct (Z.ltb_spec status 0) as [Hneg | Hpos].
      * wp_step as [] _. wp_done.
        split; [split; discriminate |]. split; [contradiction | discriminate].
      * wp_done.
        split; [split; reflexivity |]. split; [contradiction |].
        intros _. exists status. split; [exact Hpos | reflexivity].
  - unfold Sender.BindSocketToListen.
    destruct (Z.ltb_spec (socket_handle_ s) 0) as [Hbad | Hgood].
    + wp_step as [] _. wp_done.
      split; [split; discriminate |]. split; [reflexivity | discriminate].
    + wp_step as status _.
      wp_norm. destruct (Z.ltb_spec status 0) as [Hneg | Hpos].
      * wp_step as [] _. wp_done.
        split; [split; discriminate |]. split; [lia | discriminate].
      * wp_done.
        split; [split; reflexivity |]. split; [lia |].
        intros _. exists status. split; [exact Hpos | reflexivity].
  - unfold MultiReceiver.BindSocketToListen.
    destruct (Z.eqb_spec (socket_handle_ s) INVALID_SOCKET) as [Hbad | Hgood].
    + wp_step as [] _. wp_done.
      split; [split; discriminate |]. split; [reflexivity | discriminate].
    + wp_step as mode Hmode. cbn in Hmode.
      wp_norm.
      destruct (Z.eqb_spec mode SOCKET_ERROR) as [Hfail | _]; [contradiction |].
      wp_step as status _.
      wp_norm. destruct (Z.ltb_spec status 0) as [Hneg | Hpos].
      * wp_step as [] _. wp_done.
        split; [split; discriminate |]. split; [contradiction | discriminate].
      * wp_done.
        split; [split; reflexivity |]. split; [contradiction |].
        intros _. exists mode, status. split; [exact Hpos | reflexivity].
Qed.

Lemma BindSocketToListen_contract_witness :
  (true = true <-> stderr_lines [Call (Bind 100 (listen_addr socket0) 16) 0] = [])
  /\ (100 = INVALID_SOCKET ->
      [Call (Bind 100 (listen_addr socket0) 16) 0]
      = [Call (Cerr "Binding failed. Socket was not initialized.") tt])
  /\ (true = true ->
      exists status,
        0 <= status
        /\ [Call (Bind 100 (listen_addr socket0) 16) 0]
           = [Call (Bind 100 (listen_addr socket0) sizeof_sockaddr_in) status]).
Proof.
  apply (wp_sound _ _ _ (proj1 (BindSocketToListen_contract socket0))
           _ (Ret true) true).
  - unfold Receiver.BindSocketToListen.
    change (socket_handle_ socket0 =? INVALID_SOCKET) with false.
    run_step. run_done.
  - reflexivity.
  - repeat constructor.
Defined.

(** ** Starting a session of the threaded receiver *)

(** The calls of a thread that ends in [exit], taken one after the other,
    end the process. *)
Lemma thread_exit_ends_process pool i t tr u code k :
  nth_error pool i = Some t ->
  runs t tr u ->
  observe u = VisF (Exit code) k ->
  Forall no_spawn tr ->
  psteps (Running pool) (List.map (L_call i) tr ++ [L_exit i code])
         (Exited code).
Proof.
  intros Hnth Hrun Hexit Hspawn.
  destruct (psteps_thread pool i _ _ _ _ Hnth (runs_done _ _ eq_refl)
              Hrun Hspawn)
    as [u' [Hsteps [Hnth' Hu']]].
  eapply psteps_app; [exact Hsteps |].
  eapply psteps_cons; [| apply psteps_nil].
  eapply pstep_exit; [exact Hnth' | exact Hu' | exact Hexit].
Qed.

(** X10.  Besides a failing [bind], a session of the threaded receiver has
    three ways to fail while starting, and each ends the whole process:
    [WSAStartup] fails (status 0, nothing logged, no socket created); the
    socket could not be created (two lines on stderr, status -1, neither
    [ioctlsocket] nor [bind] called); [ioctlsocket] fails (a line on
    stdout, the socket closed, [WSACleanup], status -1, [bind] never
    called). *)
Theorem threaded_receiver_startup_failures
        (pool : list (itree ioE unit)) (i : nat) (port : Z)
        (kWindowName_id : string) (started handle closed cleaned : Z) :
  nth_error pool i = Some (MultiReceiver.receive port kWindowName_id) ->
  started <> 0 ->
  handle <> INVALID_SOCKET ->
  psteps (Running pool)
         (List.map (L_call i) [Call (WSAStartup (MAKEWORD 2 2)) started]
          ++ [L_exit i 0])
         (Exited 0)
  /\ psteps (Running pool)
            (List.map (L_call i)
               [ Call (WSAStartup (MAKEWORD 2 2)) 0;
                 Call (Socket AF_INET SOCK_DGRAM 0) INVALID_SOCKET;
                 Call (Cerr "Binding failed. Socket was not initialized.") tt;
                 Call (Cerr "Could not bind socket.") tt ]
             ++ [L_exit i (-1)])
            (Exited (-1))
  /\ psteps (Running pool)
            (List.map (L_call i)
               [ Call (WSAStartup (MAKEWORD 2 2)) 0;
                 Call (Socket AF_INET SOCK_DGRAM 0) handle;
                 Call (Ioctlsocket handle FIONBIO 1) SOCKET_ERROR;
                 Call (Printf "ioctlsocket failed!") tt;
                 Call (Closesocket handle) closed;
                 Call WSACleanup cleaned ]
             ++ [L_exit i (-1)])
            (Exited (-1)).
Proof.
  intros Hnth Hstarted Hhandle.
  split; [| split];
    eapply (thread_exit_ends_process pool i _ _ _ _ _ Hnth);
    try (repeat constructor);
    unfold MultiReceiver.receive, ReceiverSocket_new,
      MultiReceiver.BindSocketToListen.
  - run_step. run_norm.
    destruct (Z.eqb_spec started 0) as [E | _]; [contradiction |].
    apply runs_done. reflexivity.
  - first_step.
  - run_step. run_norm. change (0 =? 0) with true.
    run_step. run_norm. cbn [socket_handle_].
    change (INVALID_SOCKET =? INVALID_SOCKET) with true.
    run_step. run_step. apply runs_done. reflexivity.
  - first_step.
  - run_step. run_norm. change (0 =? 0) with true.
    run_step. run_norm. cbn [socket_handle_].
    destruct (Z.eqb_spec handle INVALID_SOCKET) as [E | _]; [contradiction |].
    run_step. run_norm.
    change (SOCKET_ERROR =? SOCKET_ERROR) with true.
    run_step. run_step. run_step. run_norm. apply runs_done. reflexivity.
  - first_step.
Qed.

Lemma threaded_receiver_startup_failures_witness :
  let pool := [ MultiReceiver.receive 5000 "Streaming Video 1";
                MultiReceiver.receive 4000 "Streaming Video 0" ] in
  psteps (Running pool)
         (List.map (L_call 1) [Call (WSAStartup (MAKEWORD 2 2)) 10091]
          ++ [L_exit 1 0])
         (Exited 0)
  /\ psteps (Running pool)
            (List.map (L_call 1)
               [ Call (WSAStartup (MAKEWORD 2 2)) 0;
                 Call (Socket AF_INET SOCK_DGRAM 0) INVALID_SOCKET;
                 Call (Cerr "Binding failed. Socket was not initialized.") tt;
                 Call (Cerr "Could not bind socket.") tt ]
             ++ [L_exit 1 (-1)])
            (Exited (-1))
  /\ psteps (Running pool)
            (List.map (L_call 1)
               [ Call (WSAStartup (MAKEWORD 2 2)) 0;
                 Call (Socket AF_INET SOCK_DGRAM 0) 100;
                 Call (Ioctlsocket 100 FIONBIO 1) SOCKET_ERROR;
                 Call (Printf "ioctlsocket failed!") tt;
                 Call (Closesocket 100) 0;
                 Call WSACleanup 0 ]
             ++ [L_exit 1 (-1)])
            (Exited (-1)).
Proof.
  apply (threaded_receiver_startup_failures
           [ MultiReceiver.receive 5000 "Streaming Video 1";
             MultiReceiver.receive 4000 "Streaming Video 0" ]
           1 4000 "Streaming Video 0" 10091 100 0 0).
  - reflexivity.
  - lia.
  - unfold INVALID_SOCKET. lia.
Defined.

(** ** No poll before the bind *)

Lemma runs_inv_call {R} (t u : itree ioE R) X (e : ioE X) k tr :
  observe t = VisF e k ->
  runs t tr u ->
  (tr = [] /\ observe u = VisF e k)
  \/ exists x tr', tr = Call e x :: tr' /\ runs (k x) tr' u.
Proof.
  intros E H.
  inversion H as [a b E' | a a' tr' b E' _ | a X' e' k' x' tr' b E' H'];
    subst; rewrite E in E'; try discriminate.
  - left. split; [reflexivity | symmetry; exact E'].
  - right. inversion E'. subst.
    repeat match goal with
           | H : existT _ _ _ = existT _ _ _ |- _ => apply inj_pair2 in H
           end.
    subst. exists x', tr'. split; [reflexivity | exact H'].
Qed.

Ltac run_norm_in H :=
  match type of H with
  | runs ?t ?tr ?u =>
      let t' := push_ret t in
      apply (runs_observe t' t u tr eq_refl) in H;
      cbn [video_frame_ frame_image_ GetImage SetImage] in H
  end.

Ltac run_inv H x tr' :=
  run_norm_in H;
  eapply runs_inv_call in H; [| first_step];
  destruct H as [[-> _] | [x [tr' [-> H]]]].

(** X11.  A session of the threaded receiver never waits for or takes a
    datagram before its socket is bound: every run that contains a
    [select] or a [recvfrom] began with a successful [WSAStartup], a valid
    socket, a successful switch to non-blocking mode, a [bind] that
    returned no error, and the line "Listening on port N." on stdout. *)
Theorem threaded_receiver_polls_only_when_bound
        (port : Z) (kWindowName_id : string)
        (tr : list io_event) (u : itree ioE unit) :
  runs (MultiReceiver.receive port kWindowName_id) tr u ->
  existsb is_poll tr = true ->
  exists handle mode status rest,
    tr = listening_calls port handle mode status ++ rest
    /\ handle <> INVALID_SOCKET
    /\ mode <> SOCKET_ERROR
    /\ 0 <= status.
Proof.
  intros H Hpoll.
  unfold MultiReceiver.receive, ReceiverSocket_new,
    MultiReceiver.BindSocketToListen, listen_addr in H.
  run_inv H started tr1; [discriminate |]. cbn in Hpoll.
  run_norm_in H.
  destruct (Z.eqb_spec started 0) as [-> | _].
  2:{ run_inv H x tr2; [discriminate | destruct x]. }
  run_inv H sock tr2; [discriminate |]. cbn in Hpoll.
  run_norm_in H. cbn [socket_handle_ port_] in H.
  destruct (Z.eqb_spec sock INVALID_SOCKET) as [-> | Hhandle].
  { run_inv H x1 tr3; [discriminate |]. cbn in Hpoll.
    run_inv H x2 tr4; [discriminate |]. cbn in Hpoll.
    run_inv H x tr5; [discriminate | destruct x]. }
  run_inv H mode tr3; [discriminate |]. cbn in Hpoll.
  run_norm_in H.
  destruct (Z.eqb_spec mode SOCKET_ERROR) as [-> | Hmode].
  { run_inv H x1 tr4; [discriminate |]. cbn in Hpoll.
    run_inv H x2 tr5; [discriminate |]. cbn in Hpoll.
    run_inv H x3 tr6; [discriminate |]. cbn in Hpoll.
    run_inv H x tr7; [discriminate | destruct x]. }
  run_inv H status tr4; [discriminate |]. cbn in Hpoll.
  run_norm_in H.
  destruct (Z.ltb_spec status 0) as [Hneg | Hstatus].
  { run_inv H x1 tr5; [discriminate |]. cbn in Hpoll.
    run_inv H x2 tr6; [discriminate |]. cbn in Hpoll.
    run_inv H x tr7; [discriminate | destruct x]. }
  run_inv H listening tr5; [discriminate |]. destruct listening.
  exists sock, mode, status, tr5.
  split; [reflexivity |]. auto.
Qed.

Lemma threaded_receiver_polls_only_when_bound_witness :
  exists handle mode status rest,
    listening_calls 4000 100 0 0
    ++ fallback_trace socket0 "Streaming Video 0" quiet0
    = listening_calls 4000 handle mode status ++ rest
    /\ handle <> INVALID_SOCKET
    /\ mode <> SOCKET_ERROR
    /\ 0 <= status.
Proof.
  apply (threaded_receiver_polls_only_when_bound 4000 "Streaming Video 0"
           (listening_calls 4000 100 0 0
            ++ fallback_trace socket0 "Streaming Video 0" quiet0)
           (MultiReceiver.receive_loop "Streaming Video 0"
              (socket0, BasicProtocolData_new))).
  - eapply runs_app.
    + apply (listening_run 4000 "Streaming Video 0" 100 0 0).
      * unfold INVALID_SOCKET. lia.
      * unfold SOCKET_ERROR. lia.
      * lia.
    + apply (quiet_loop "Streaming Video 0" socket0 [quiet0]).
      repeat constructor.
  - reflexivity.
Defined.

(** ** Starting the other programs *)

(** X12.  The single-window receiver's [main] returns 0 when [WSAStartup]
    fails and -1 when the socket could not be created or bound, after two
    lines on stderr; otherwise it binds port 5000 without switching the
    socket to non-blocking mode, writes "Listening on port 5000." and is at
    the head of its loop with an empty frame stored. *)
Theorem single_receiver_startup (started handle status : Z) :
  started <> 0 ->
  handle <> INVALID_SOCKET ->
  let socket :=
    {| buffer_ := fresh_buffer kMaxPacketBufferSize;
       port_ := 5000;
       socket_handle_ := handle |} in
  let create :=
    [ Call (WSAStartup (MAKEWORD 2 2)) 0;
      Call (Socket AF_INET SOCK_DGRAM 0) handle;
      Call (Bind handle (listen_addr socket) sizeof_sockaddr_in) status ] in
  runs Receiver.main [Call (WSAStartup (MAKEWORD 2 2)) started] (Ret 0)
  /\ runs Receiver.main
          [ Call (WSAStartup (MAKEWORD 2 2)) 0;
            Call (Socket AF_INET SOCK_DGRAM 0) INVALID_SOCKET;
            Call (Cerr "Binding failed. Socket was not initialized.") tt;
            Call (Cerr "Could not bind socket.") tt ]
          (Ret (-1))
  /\ (status < 0 ->
      runs Receiver.main
           (create
            ++ [ Call (Cerr "Binding failed. Could not bind the socket.") tt;
                 Call (Cerr "Could not bind socket.") tt ])
           (Ret (-1)))
  /\ (0 <= status ->
      runs Receiver.main
           (create ++ [Call (Cout "Listening on port 5000.") tt])
           (Receiver.receive_loop (socket, BasicProtocolData_new))).
Proof.
  intros Hstarted Hhandle socket create. subst socket create.
  unfold Receiver.main, ReceiverSocket_new, Receiver.BindSocketToListen,
    listen_addr.
  split; [| split; [| split]].
  - run_step. run_norm.
    destruct (Z.eqb_spec started 0) as [E | _]; [contradiction |].
    run_done.
  - run_step. run_norm. change (0 =? 0) with true.
    run_step. run_norm. cbn [socket_handle_].
    change (INVALID_SOCKET =? INVALID_SOCKET) with true.
    run_step. run_step. run_done.
  - intros Hstatus. cbn [app].
    run_step. run_norm. change (0 =? 0) with true.
    run_step. run_norm. cbn [socket_handle_ port_].
    destruct (Z.eqb_spec handle INVALID_SOCKET) as [E | _]; [contradiction |].
    run_step. run_norm.
    destruct (Z.ltb_spec status 0) as [_ | Hge]; [| lia].
    run_step. run_step. run_done.
  - intros Hstatus. cbn [app].
    run_step. run_norm. change (0 =? 0) with true.
    run_step. run_norm. cbn [socket_handle_ port_].
    destruct (Z.eqb_spec handle INVALID_SOCKET) as [E | _]; [contradiction |].
    run_step. run_norm.
    destruct (Z.ltb_spec status 0) as [Hlt | _]; [lia |].
    run_step. apply runs_done. reflexivity.
Qed.

Lemma single_receiver_startup_witness :
  let socket :=
    {| buffer_ := fresh_buffer kMaxPacketBufferSize;
       port_ := 5000;
       socket_handle_ := 100 |} in
  runs Receiver.main
       ([ Call (WSAStartup (MAKEWORD 2 2)) 0;
          Call (Socket AF_INET SOCK_DGRAM 0) 100;
          Call (Bind 100 (listen_addr socket) sizeof_sockaddr_in) 0 ]
        ++ [Call (Cout "Listening on port 5000.") tt])
       (Receiver.receive_loop (socket, BasicProtocolData_new)).
Proof.
  intros socket.
  apply (proj2 (proj2 (proj2
           (single_receiver_startup 10091 100 0
              ltac:(lia) ltac:(unfold INVALID_SOCKET; lia))))).
  lia.
Defined.

(** X13.  A sender session checks nothing but [WSAStartup]: if that fails
    the thread calls [exit(0)]; otherwise, whatever handle [socket]
    returned (the invalid one included), whatever [inet_addr] made of the
    address and whatever camera was opened, the session writes "Sending to
    IP on port N." and is at the head of its send loop, sending to port N
    in network byte order, with scale 0.6 and without preview. *)
Theorem sender_startup (port : Z) (ip_address : string) (camera : Z)
        (started handle s_addr capture : Z) :
  started <> 0 ->
  (exists u k,
      runs (Sender.send_to port ip_address camera)
           [Call (WSAStartup (MAKEWORD 2 2)) started] u
      /\ observe u = VisF (Exit 0) k)
  /\ runs (Sender.send_to port ip_address camera)
          [ Call (WSAStartup (MAKEWORD 2 2)) 0;
            Call (Socket AF_INET SOCK_DGRAM 0) handle;
            Call (Inet_addr ip_address) s_addr;
            Call (Cout ("Sending to " ++ ip_address ++ " on port "
                        ++ to_string port ++ ".")%string) tt;
            Call (VideoCaptureOpen camera) capture ]
          (Sender.send_loop
             {| Sender.socket_handle_ := handle;
                Sender.receiver_addr_ :=
                  {| sin_family := AF_INET; sin_port := htons port;
                     sin_addr := s_addr |} |}
             ({| capture_ := capture; scale_ := 6 # 10;
                 show_video_ := false |},
              BasicProtocolData_new)).
Proof.
  intros Hstarted.
  unfold Sender.send_to, Sender.SenderSocket_new, VideoCapture_new.
  split.
  - eexists. eexists. split.
    + run_step. run_norm.
      destruct (Z.eqb_spec started 0) as [E | _]; [contradiction |].
      apply runs_done. reflexivity.
    + first_step.
  - run_step. run_norm. change (0 =? 0) with true.
    do 4 run_step. run_norm. apply runs_done. reflexivity.
Qed.

Lemma sender_startup_witness :
  (exists u k,
      runs Sender.send1 [Call (WSAStartup (MAKEWORD 2 2)) 10091] u
      /\ observe u = VisF (Exit 0) k)
  /\ runs Sender.send1
          [ Call (WSAStartup (MAKEWORD 2 2)) 0;
            Call (Socket AF_INET SOCK_DGRAM 0) INVALID_SOCKET;
            Call (Inet_addr "192.168.43.168") 0xA82BA8C0;
            Call (Cout "Sending to 192.168.43.168 on port 6000.") tt;
            Call (VideoCaptureOpen 0) 0 ]
          (Sender.send_loop
             {| Sender.socket_handle_ := INVALID_SOCKET;
                Sender.receiver_addr_ :=
                  {| sin_family := AF_INET; sin_port := htons 6000;
                     sin_addr := 0xA82BA8C0 |} |}
             (camera0, BasicProtocolData_new)).
Proof.
  apply (sender_startup 6000 "192.168.43.168" 0 10091 INVALID_SOCKET
           0xA82BA8C0 0).
  lia.
Defined.

(** ** The main thread among its sessions *)

Lemma psteps_exited code ls st :
  psteps (Exited code) ls st -> ls = [] /\ st = Exited code.
Proof.
  intros H. inversion H as [| p l p' ls' p'' Hstep _]; subst.
  - split; reflexivity.
  - inversion Hstep.
Qed.

Lemma label_of_call i X (e : ioE X) (x : X) :
  is_spawn e = false -> label_of i (Call e x) = L_call i (Call e x).
Proof.
  intros H. destruct e; try reflexivity; discriminate H.
Qed.

Lemma set_thread_other i j t pool :
  (j < List.length pool)%nat -> i <> j ->
  nth_error (set_thread j t pool) i = nth_error pool i.
Proof.
  revert i pool. induction j as [| j IH]; intros i [| a pool] Hj Hij;
    cbn in Hj; try lia.
  - destruct i as [| i]; [contradiction | reflexivity].
  - destruct i as [| i]; [reflexivity |].
    unfold set_thread in *. cbn. apply IH; lia.
Qed.

Lemma grown_pool_keeps i (t u : itree ioE unit) pool :
  nth_error pool i = Some t -> nth_error (pool ++ [u]) i = Some t.
Proof.
  intros H. rewrite nth_error_app1; [exact H |].
  apply nth_error_Some. rewrite H. discriminate.
Qed.

(** Whatever the other threads do in between, the steps thread [i] takes
    are a run of its code, unless another thread ends the process. *)
Lemma thread_follows i ls :
  forall pool t st,
    psteps (Running pool) ls st ->
    nth_error pool i = Some t ->
    (forall code, ~ In (L_exit i code) ls) ->
    match st with
    | Running pool' =>
        exists tr u,
          steps_of i ls = List.map (label_of i) tr
          /\ runs t tr u
          /\ nth_error pool' i = Some u
    | Exited code => exists j, j <> i /\ In (L_exit j code) ls
    end.
Proof.
  induction ls as [| l ls IH]; intros pool t st H Hnth Hown.
  - inversion H; subst. exists [], t.
    split; [reflexivity |]. split; [apply runs_done; reflexivity | exact Hnth].
  - inversion H as [| p l' p' ls' p'' Hstep Hrest]; subst.
    assert (Hown' : forall code, ~ In (L_exit i code) ls).
    { intros code Hin. apply (Hown code). right. exact Hin. }
    assert (Hlen : forall j a, nth_error pool j = Some a ->
                               (j < List.length pool)%nat).
    { intros j a E. apply nth_error_Some. rewrite E. discriminate. }
    inversion Hstep as [pool0 j t0 t' X e k x Hj Hsilent Hvis Hcall
                       | pool0 j t0 t' f k Hj Hsilent Hvis
                       | pool0 j t0 t' code k Hj Hsilent Hvis]; subst.
    + (* a call *)
      destruct (Nat.eq_dec j i) as [-> | Hji].
      * rewrite Hnth in Hj. injection Hj as <-.
        specialize (IH _ (k x) st Hrest
                       (nth_set_thread i (k x) pool (Hlen _ _ Hnth)) Hown').
        destruct st as [pool' | code].
        -- destruct IH as [tr [u [Hsteps [Hrun Hu]]]].
           exists (Call e x :: tr), u.
           split; [| split; [| exact Hu]].
           ++ unfold steps_of in *. cbn [filter label_thread].
              rewrite Nat.eqb_refl. cbn [List.map].
              rewrite label_of_call by exact Hcall. f_equal. exact Hsteps.
           ++ apply (runs_app t t' u [] (Call e x :: tr) Hsilent).
              eapply runs_call; [exact Hvis | exact Hrun].
        -- destruct IH as [j [Hj Hin]]. exists j. split; [exact Hj |].
           right. exact Hin.
      * assert (Hkeep : nth_error (set_thread j (k x) pool) i = Some t).
        { rewrite set_thread_other by eauto. exact Hnth. }
        specialize (IH _ t st Hrest Hkeep Hown').
        destruct st as [pool' | code].
        -- destruct IH as [tr [u [Hsteps [Hrun Hu]]]].
           exists tr, u. split; [| split; assumption].
           unfold steps_of in *. cbn [filter label_thread].
           apply Nat.eqb_neq in Hji. rewrite Hji. exact Hsteps.
        -- destruct IH as [j' [Hj' Hin]]. exists j'. split; [exact Hj' |].
           right. exact Hin.
    + (* a new thread *)
      destruct (Nat.eq_dec j i) as [-> | Hji].
      * rewrite Hnth in Hj. injection Hj as <-.
        assert (Hkeep : nth_error (set_thread i (k (List.length pool)) pool
                                   ++ [thread_code f]) i
                        = Some (k (List.length pool))).
        { apply grown_pool_keeps. apply nth_set_thread. eauto. }
        specialize (IH _ _ st Hrest Hkeep Hown').
        destruct st as [pool' | code].
        -- destruct IH as [tr [u [Hsteps [Hrun Hu]]]].
           exists (Call (ThreadStart f) (List.length pool) :: tr), u.
           split; [| split; [| exact Hu]].
           ++ unfold steps_of in *. cbn [filter label_thread].
              rewrite Nat.eqb_refl. cbn [List.map label_of].
              f_equal. exact Hsteps.
           ++ apply (runs_app t t' u [] (_ :: tr) Hsilent).
              eapply runs_call; [exact Hvis | exact Hrun].
        -- destruct IH as [j [Hj Hin]]. exists j. split; [exact Hj |].
           right. exact Hin.
      * assert (Hkeep : nth_error (set_thread j (k (List.length pool)) pool
                                   ++ [thread_code f]) i = Some t).
        { apply grown_pool_keeps. rewrite set_thread_other by eauto.
          exact Hnth. }
        specialize (IH _ t st Hrest Hkeep Hown').
        destruct st as [pool' | code].
        -- destruct IH as [tr [u [Hsteps [Hrun Hu]]]].
           exists tr, u. split; [| split; assumption].
           unfold steps_of in *. cbn [filter label_thread].
           apply Nat.eqb_neq in Hji. rewrite Hji. exact Hsteps.
        -- destruct IH as [j' [Hj' Hin]]. exists j'. split; [exact Hj' |].
           right. exact Hin.
    + (* the end of the process *)
      apply psteps_exited in Hrest. destruct Hrest as [-> ->].
      exists j. split.
      * intros ->. apply (Hown code). left. reflexivity.
      * left. reflexivity.
Qed.

Lemma runs_inv_cons {R} (t u : itree ioE R) X (e : ioE X) k ev tr :
  observe t = VisF e k ->
  runs t (ev :: tr) u ->
  exists x, ev = Call e x /\ runs (k x) tr u.
Proof.
  intros E H.
  destruct (runs_inv_call t u X e k (ev :: tr) E H)
    as [[Hnil _] | [x [tr' [Hcons Hrun]]]].
  - discriminate Hnil.
  - injection Hcons as -> ->. exists x. split; [reflexivity | exact Hrun].
Qed.

Lemma runs_inv_nil {R} (t u : itree ioE R) X (e : ioE X) k :
  observe t = VisF e k -> runs t [] u -> observe u = VisF e k.
Proof.
  intros E H.
  destruct (runs_inv_call t u X e k [] E H)
    as [[_ Hu] | [x [tr' [Hcons _]]]].
  - exact Hu.
  - discriminate Hcons.
Qed.

Ltac run_next H :=
  run_norm_in H;
  eapply runs_inv_cons in H; [| first_step];
  destruct H as [? [_ H]].

(** A thread that is about to call [exit] can take no other step. *)
Lemma exit_is_the_only_step pool i u code k l st :
  nth_error pool i = Some u ->
  observe u = VisF (Exit code) k ->
  pstep (Running pool) l st ->
  label_thread l = i ->
  l = L_exit i code /\ st = Exited code.
Proof.
  intros Hnth Hexit Hstep Hl.
  pose (spawns := fun ob : itreeF ioE unit (itree ioE unit) =>
                    match ob with
                    | VisF e _ => is_spawn e
                    | _ => false
                    end).
  pose (exits := fun ob : itreeF ioE unit (itree ioE unit) =>
                   match ob with
                   | VisF e _ => is_exit e
                   | _ => false
                   end).
  pose (status := fun ob : itreeF ioE unit (itree ioE unit) =>
                    match ob with
                    | VisF e _ =>
                        match e with
                        | Exit c => c
                        | _ => 0
                        end
                    | _ => 0
                    end).
  inversion Hstep as [pool0 j t0 t' X e k' x Hj Hsilent Hvis Hcall
                     | pool0 j t0 t' f k' Hj Hsilent Hvis
                     | pool0 j t0 t' code' k' Hj Hsilent Hvis]; subst;
    cbn [label_thread] in Hnth; rewrite Hnth in Hj; injection Hj as <-;
    pose proof (runs_inv_nil _ _ _ _ _ Hexit Hsilent) as Hvis';
    rewrite Hvis in Hvis'.
  - apply (f_equal exits) in Hvis'. cbn in Hvis'.
    destruct e; try discriminate Hvis'. destruct x.
  - apply (f_equal spawns) in Hvis'. discriminate Hvis'.
  - apply (f_equal status) in Hvis'. cbn in Hvis'. subst code'.
    split; reflexivity.
Qed.

Lemma seven_calls (tr : list io_event) (ls : list plabel) i :
  List.map (label_of i) tr = ls ->
  List.length ls = 7%nat ->
  exists e1 e2 e3 e4 e5 e6 e7, tr = [e1; e2; e3; e4; e5; e6; e7].
Proof.
  intros <- Hlen. rewrite length_map in Hlen.
  do 7 (destruct tr as [| ? tr]; [discriminate Hlen |]).
  destruct tr; [| discriminate Hlen].
  repeat eexists.
Qed.

(** X14.  [main] of the threaded receiver starts its three sessions (ports
    4000, 5000 and 6000, each with a window name of its own), detaches
    them and waits in [system("pause")].  In every execution of the
    process, however the steps of the sessions fall between those of
    [main], once the pause has returned, whatever it returns, either a
    session has ended the process through [exit] in the meantime or the
    one step left to [main] is to return 0, which ends the process and
    every session with it. *)
Theorem threaded_receiver_main_ends_the_sessions
        (ls : list plabel) (st : pstate) (h1 h2 h3 : nat) (paused : Z) :
  psteps (Running [main_thread MultiReceiver.main]) ls st ->
  steps_of 0 ls = main_steps h1 h2 h3 paused ->
  match st with
  | Running pool =>
      pstep (Running pool) (L_exit 0 0) (Exited 0)
      /\ (forall l st',
             pstep (Running pool) l st' ->
             label_thread l = 0%nat ->
             l = L_exit 0 0 /\ st' = Exited 0)
  | Exited code => exists j, j <> 0%nat /\ In (L_exit j code) ls
  end.
Proof.
  intros Hrun Hmain.
  assert (Hown : forall code, ~ In (L_exit 0 code) ls).
  { intros code Hin.
    assert (Hin' : In (L_exit 0 code) (steps_of 0 ls)).
    { apply filter_In. split; [exact Hin | reflexivity]. }
    rewrite Hmain in Hin'. unfold main_steps in Hin'. cbn [In] in Hin'.
    repeat (destruct Hin' as [Hin' | Hin']; [discriminate Hin' |]).
    exact Hin'. }
  pose proof (thread_follows 0 ls _ _ st Hrun eq_refl Hown) as Hfollow.
  destruct st as [pool | code]; [| exact Hfollow].
  destruct Hfollow as [tr [u [Hsteps [Hcode Hnth]]]].
  rewrite Hmain in Hsteps. symmetry in Hsteps.
  destruct (seven_calls tr _ 0 Hsteps eq_refl)
    as [e1 [e2 [e3 [e4 [e5 [e6 [e7 ->]]]]]]].
  clear Hsteps.
  unfold main_thread, MultiReceiver.main in Hcode.
  do 7 run_next Hcode.
  run_norm_in Hcode.
  eapply runs_inv_nil in Hcode; [| first_step].
  split.
  - eapply pstep_exit;
      [exact Hnth | apply runs_done; reflexivity | exact Hcode].
  - intros l st' Hstep Hl.
    exact (exit_is_the_only_step pool 0 u 0 _ l st' Hnth Hcode Hstep Hl).
Qed.

Lemma interleaved_start_runs :
  exists pool,
    psteps (Running [main_thread MultiReceiver.main]) interleaved_start
           (Running pool).
Proof.
  unfold interleaved_start. eexists.
  eapply psteps_cons.
  { eapply pstep_spawn;
      [reflexivity | apply runs_done; reflexivity | cbn; reflexivity]. }
  cbn [set_thread firstn skipn app List.length thread_code].
  eapply psteps_cons.
  { eapply (pstep_call _ 1);
      [ reflexivity | apply runs_done; reflexivity
      | unfold MultiReceiver.receive; first_step | reflexivity ]. }
  cbn [set_thread firstn skipn app List.length].
  eapply psteps_cons.
  { eapply pstep_spawn;
      [reflexivity | apply runs_done; reflexivity | cbn; reflexivity]. }
  cbn [set_thread firstn skipn app List.length thread_code].
  eapply psteps_cons.
  { eapply pstep_spawn;
      [reflexivity | apply runs_done; reflexivity | cbn; reflexivity]. }
  cbn [set_thread firstn skipn app List.length thread_code].
  eapply psteps_cons.
  { eapply (pstep_call _ 0);
      [ reflexivity | apply runs_done; reflexivity
      | cbn; reflexivity | reflexivity ]. }
  cbn [set_thread firstn skipn app List.length].
  eapply psteps_cons.
  { eapply (pstep_call _ 3);
      [ reflexivity | apply runs_done; reflexivity
      | unfold MultiReceiver.receive; first_step | reflexivity ]. }
  cbn [set_thread firstn skipn app List.length].
  eapply psteps_cons.
  { eapply (pstep_call _ 0);
      [ reflexivity | apply runs_done; reflexivity
      | cbn; reflexivity | reflexivity ]. }
  cbn [set_thread firstn skipn app List.length].
  eapply psteps_cons.
  { eapply (pstep_call _ 0);
      [ reflexivity | apply runs_done; reflexivity
      | cbn; reflexivity | reflexivity ]. }
  cbn [set_thread firstn skipn app List.length].
  eapply psteps_cons.
  { eapply (pstep_call _ 0);
      [ reflexivity | apply runs_done; reflexivity
      | cbn; reflexivity | reflexivity ]. }
  apply psteps_nil.
Qed.

Lemma threaded_receiver_main_ends_the_sessions_witness :
  exists pool,
    psteps (Running [main_thread MultiReceiver.main]) interleaved_start
           (Running pool)
    /\ steps_of 0 interleaved_start = main_steps 1 2 3 0
    /\ pstep (Running pool) (L_exit 0 0) (Exited 0).
Proof.
  destruct interleaved_start_runs as [pool Hrun].
  exists pool. split; [exact Hrun |]. split; [reflexivity |].
  exact (proj1 (threaded_receiver_main_ends_the_sessions
                  interleaved_start (Running pool) 1 2 3 0 Hrun eq_refl)).
Defined.
